(** * Image packing automation: the page layout of [task_1_starter_code.py]

    A shallow embedding of [get_bounding_box_of_visible_area],
    [preprocess_image] and [generate_pdf], and the properties of the layout
    that the loop of [generate_pdf] computes.

    Conventions of the embedding.
    - Python [float]s are idealised as exact rationals ([Q]); every
      concrete input used below is chosen so that the floating-point
      computation is exact or far from the compared bound.
    - Lengths are in points, as in ReportLab: [inch = 72].
    - Coordinates are those of the PDF canvas: origin at the bottom-left
      corner of the page, [y] growing upwards; [drawImage x y w h] covers
      [x, x+w] by [y, y+h].
    - A directory is a listing of names ([os.listdir]) with a partial map
      from names to what [Image.open] yields for them.
    - Pillow reads the header of a file when it opens it and the pixels
      when they are first needed: an image records whether its pixels can
      be decoded, and the calls that load them raise when they cannot.
    - Exceptions are values of a [result] type; the [try]/[except] blocks of
      the source are pattern matches on it. *)

From Stdlib Require Import List Bool ZArith QArith Qabs Lqa Lia.
From Stdlib Require Import Ascii String.
From Stdlib Require Import Permutation Sorted.
Import ListNotations.

Set Implicit Arguments.

(* ------------------------------------------------------------------ *)
(** ** Python strings: [lower], [endswith], [sorted] *)

Module PyStr.

Local Open Scope string_scope.

(** [str.lower] on one character: the ASCII capitals are mapped to the
    small letters, every other byte is left alone.  A name is a string of
    bytes (UTF-8); no character outside ASCII becomes, in lower case, a
    letter of [".png"], [".jpg"] or [".jpeg"], so the test of line 73 does
    not see the difference. *)
Definition lower_ascii (c : ascii) : ascii :=
  let n := N_of_ascii c in
  if ((65 <=? n) && (n <=? 90))%N then ascii_of_N (n + 32) else c.

Fixpoint lower (s : string) : string :=
  match s with
  | EmptyString => EmptyString
  | String c r => String (lower_ascii c) (lower r)
  end.

(** [s.endswith(suffix)] *)
Definition endswith (s suffix : string) : bool :=
  let n := String.length s in
  let k := String.length suffix in
  (k <=? n)%nat && String.eqb (substring (n - k) k s) suffix.

(** [s.endswith((a, b, ...))]: true when one of the suffixes matches. *)
Definition endswith_any (s : string) (suffixes : list string) : bool :=
  existsb (endswith s) suffixes.

(** [str] comparison [a <= b]: lexicographic on the characters (on the
    bytes of UTF-8, which compare as the code points do). *)
Definition le (a b : string) : Prop := String.leb a b = true.

(** [sorted(l)] for a list of strings.  Python's sort is stable; on
    strings, where [a <= b] and [b <= a] force [a = b], every stable sort
    returns the same list, here computed by insertion. *)
Fixpoint insert (x : string) (l : list string) : list string :=
  match l with
  | [] => [x]
  | y :: r => if String.leb x y then x :: l else y :: insert x r
  end.

Fixpoint sorted (l : list string) : list string :=
  match l with
  | [] => []
  | x :: r => insert x (sorted r)
  end.

End PyStr.

(* ------------------------------------------------------------------ *)
(** ** Exceptions *)

Inductive exn : Type :=
| OSError            (* a file that cannot be found, read as an image or written *)
| ValueError         (* [getchannel] on a band the image does not have *)
| ZeroDivisionError. (* division by an [int] that is [0] *)

Inductive result (A : Type) : Type :=
| Ok (a : A)
| Raise (e : exn).

Arguments Ok {A} a.
Arguments Raise {A} e.

Definition bind {A B : Type} (r : result A) (k : A -> result B) : result B :=
  match r with
  | Ok a => k a
  | Raise e => Raise e
  end.

Notation "x <- r ;; k" := (bind r (fun x => k))
  (at level 61, r at next level, right associativity).

(* ------------------------------------------------------------------ *)
(** ** The part of Pillow the script calls *)

Module PIL.

Local Open Scope string_scope.
Local Open Scope Z_scope.

(** A box [(left, upper, right, lower)]. *)
Definition bbox : Type := (Z * Z * Z * Z)%type.

(** An image, reduced to what the script reads from it: [mode], whether
    ['transparency'] is a key of [info], [width], [height], and the pixels.
    Pillow reads the header of a file when it opens it and the pixels
    when they are first needed ([load]): [pixels] is [None] for a file
    that opens but whose pixels cannot be decoded (a truncated file), and
    otherwise gives, for each band, the bounding box of the pixels of that
    band that are not zero ([None] when all are zero: for the band ["A"],
    when every pixel is transparent). *)
Record Image : Type := mkImage {
  mode : string;
  info_transparency : bool;
  width : Z;
  height : Z;
  pixels : option (string -> option bbox)
}.

(** Whether [image.load()] succeeds. *)
Definition decodable (image : Image) : bool :=
  match pixels image with
  | Some _ => true
  | None => false
  end.

(** The bounding box of the pixels of a band that are not zero. *)
Definition band_box (image : Image) (name : string) : option bbox :=
  match pixels image with
  | Some boxes => boxes name
  | None => None
  end.

(** One band of an image; [getbbox] is all the script asks of it. *)
Record Band : Type := mkBand { getbbox : option bbox }.

(** [Image.getbands], by mode.  A palette image (["P"]) has the one band
    ["P"], also when its [info] has a ['transparency'] entry; the modes
    not listed have one band, named after the mode. *)
Definition getbands (m : string) : list string :=
  if String.eqb m "RGB" then ["R"; "G"; "B"]
  else if String.eqb m "RGBA" then ["R"; "G"; "B"; "A"]
  else if String.eqb m "LA" then ["L"; "A"]
  else if String.eqb m "PA" then ["P"; "A"]
  else if String.eqb m "RGBX" then ["R"; "G"; "B"; "X"]
  else if String.eqb m "RGBa" then ["R"; "G"; "B"; "a"]
  else if String.eqb m "La" then ["L"; "a"]
  else if String.eqb m "CMYK" then ["C"; "M"; "Y"; "K"]
  else if String.eqb m "YCbCr" then ["Y"; "Cb"; "Cr"]
  else if String.eqb m "LAB" then ["L"; "A"; "B"]
  else if String.eqb m "HSV" then ["H"; "S"; "V"]
  else [m].

(** [image.getchannel(name)]: loads the pixels, which raises [OSError]
    when they cannot be decoded, then raises [ValueError] when the image
    has no band of that name. *)
Definition getchannel (image : Image) (name : string) : result Band :=
  if decodable image then
    if existsb (String.eqb name) (getbands (mode image))
    then Ok (mkBand (band_box image name))
    else Raise ValueError
  else Raise OSError.

(** [image.crop(box)]: loads the pixels, which raises [OSError] when they
    cannot be decoded; the size becomes [(right - left, lower - upper)];
    mode and [info] are kept.  The boxes of the bands move with the
    origin; the script does not read them again. *)
Definition crop (image : Image) (box : bbox) : result Image :=
  let '(x0, y0, x1, y1) := box in
  match pixels image with
  | None => Raise OSError
  | Some boxes =>
      Ok (mkImage (mode image) (info_transparency image)
                  (x1 - x0) (y1 - y0)
                  (Some (fun name =>
                           option_map
                             (fun '(l, u, r, b) => (l - x0, u - y0, r - x0, b - y0))
                             (boxes name))))
  end.

(** [image.convert(m)], on an image whose pixels are in memory. *)
Definition convert (image : Image) (m : string) : Image :=
  mkImage m (info_transparency image) (width image) (height image) (pixels image).

(** [Image.new(m, (w, h))] *)
Definition new (m : string) (size : Z * Z) : Image :=
  mkImage m false (fst size) (snd size) (Some (fun _ => None)).

(** What Pillow guarantees of an image it has opened: a positive size,
    and a box of visible pixels that is not empty and lies in the image. *)
Definition wf_image (image : Image) : Prop :=
  0 < width image /\ 0 < height image /\
  match band_box image "A" with
  | Some (l, u, r, b) => 0 <= l /\ l < r /\ r <= width image /\
                         0 <= u /\ u < b /\ b <= height image
  | None => True
  end.

End PIL.

(** A directory: the names [os.listdir] returns, in the order it returns
    them, and what [Image.open] gives for the file of each name ([None]:
    it raises). *)
Record Dir : Type := mkDir {
  listdir : list string;
  contents : string -> option PIL.Image
}.

(** [Image.open(os.path.join(input_dir, filename))] *)
Definition Image_open (input_dir : Dir) (filename : string) : result PIL.Image :=
  match contents input_dir filename with
  | Some image => Ok image
  | None => Raise OSError
  end.

(* ------------------------------------------------------------------ *)
(** ** The part of ReportLab the script calls *)

Module RL.

(** [reportlab.lib.units]: [inch = 72.0], [mm = inch / 25.4]. *)
Definition inch : Q := 72.
Definition mm : Q := inch / 25.4.

(** [reportlab.lib.pagesizes]: [A4 = (210*mm, 297*mm)]; [portrait] puts the
    smaller length first. *)
Definition A4 : Q * Q := (210 * mm, 297 * mm).
Definition portrait (pagesize : Q * Q) : Q * Q :=
  let (a, b) := pagesize in
  if Qle_bool b a then (b, a) else (a, b).

(** What is written on a page.  [DrawImage] keeps the image handed to
    [ImageReader]. *)
Inductive Op : Type :=
| DrawString (x y : Q) (text : string)
| DrawImage (image : PIL.Image) (x y w h : Q).

(** A canvas: the pages already emitted, the content of the page being
    written, and whether [save] was called. *)
Record Canvas : Type := mkCanvas {
  pages : list (list Op);
  code : list Op;
  saved : bool
}.

Definition Canvas_new : Canvas := mkCanvas [] [] false.

Definition drawString (c : Canvas) (x y : Q) (text : string) : Canvas :=
  mkCanvas (pages c) (code c ++ [DrawString x y text]) (saved c).

Definition drawImage (c : Canvas) (image : PIL.Image) (x y w h : Q) : Canvas :=
  mkCanvas (pages c) (code c ++ [DrawImage image x y w h]) (saved c).

(** [c.showPage()]: the current page is emitted, a new one begins. *)
Definition showPage (c : Canvas) : Canvas :=
  mkCanvas (pages c ++ [code c]) [] (saved c).

(** [c.save()]: a page with content is emitted first, then the file is
    written. *)
Definition save (c : Canvas) : Canvas :=
  let c' := match code c with [] => c | _ :: _ => showPage c end in
  mkCanvas (pages c') (code c') true.

End RL.

(* ------------------------------------------------------------------ *)
(** ** Placements: the images of a canvas, with page and rectangle *)

Record Placement : Type := mkPlacement {
  pageIndex : nat;
  image : PIL.Image;
  px : Q;
  py : Q;
  pw : Q;
  ph : Q
}.

Fixpoint placements_of_page (i : nat) (ops : list RL.Op) : list Placement :=
  match ops with
  | [] => []
  | RL.DrawString _ _ _ :: r => placements_of_page i r
  | RL.DrawImage im x y w h :: r => mkPlacement i im x y w h :: placements_of_page i r
  end.

Fixpoint placements_from (i : nat) (pgs : list (list RL.Op)) : list Placement :=
  match pgs with
  | [] => []
  | pg :: r => placements_of_page i pg ++ placements_from (S i) r
  end.

(** All placements of a canvas in the order they were drawn; the page
    being written counts as the page after those already emitted. *)
Definition placements (c : RL.Canvas) : list Placement :=
  placements_from 0 (RL.pages c ++ [RL.code c]).

(** Number of pages of the document. *)
Definition pageCount (c : RL.Canvas) : nat := List.length (RL.pages c).

(** Two placements intersect when their rectangles, borders included,
    have a point in common. *)
Definition intersect (p q : Placement) : Prop :=
  px p <= px q + pw q /\ px q <= px p + pw p /\
  py p <= py q + ph q /\ py q <= py p + ph p.

(* ------------------------------------------------------------------ *)
(** ** The script *)

Local Open Scope string_scope.

(** Python's [a > b] and [a < b] on numbers, and [max(a, b)], which
    returns [b] only when [b > a]. *)
Definition Qgtb (a b : Q) : bool := negb (Qle_bool a b).
Definition Qltb (a b : Q) : bool := negb (Qle_bool b a).
Definition py_max (a b : Q) : Q := if Qgtb b a then b else a.

Definition get_bounding_box_of_visible_area (image : PIL.Image) : result PIL.bbox :=
  bbox <-
    (if existsb (String.eqb (PIL.mode image)) ["RGBA"; "LA"]
        || ((PIL.mode image =? "P") && PIL.info_transparency image)
     then
       alpha <- PIL.getchannel image "A" ;;
       Ok (PIL.getbbox alpha)
     else
       Ok (Some (0, 0, PIL.width image, PIL.height image)%Z)) ;;
  Ok (match bbox with
      | Some b => b
      | None => (0, 0, PIL.width image, PIL.height image)%Z
      end).

Definition preprocess_image (input_dir : Dir) (image_path : string) : result PIL.Image :=
  match Image_open input_dir image_path with
  | Raise _ => Ok (PIL.new "RGB" (1, 1)%Z)
  | Ok image =>
      bbox <- get_bounding_box_of_visible_area image ;;
      cropped_image <- PIL.crop image bbox ;;
      let cropped_image :=
        if negb (existsb (String.eqb (PIL.mode cropped_image)) ["RGB"; "RGBA"; "P"])
        then PIL.convert cropped_image "RGBA"
        else cropped_image in
      Ok cropped_image
  end.

(** Line 13. *)
Definition PAGE_SIZE : Q * Q := RL.portrait RL.A4.

(** The names [generate_pdf] keeps from the listing, in the order it
    visits them (line 73). *)
Definition is_image_file (f : string) : bool :=
  PyStr.endswith_any (PyStr.lower f) [".png"; ".jpg"; ".jpeg"].

Definition image_files (input_dir : Dir) : list string :=
  PyStr.sorted (filter is_image_file (listdir input_dir)).

(** The variables of the loop; [canvas] is the script's [c]. *)
Record Layout : Type := mkLayout {
  canvas : RL.Canvas;
  current_x : Q;
  current_y : Q;
  max_row_height : Q
}.

(** Lines 100 to 102: the size an image is drawn at.  The division raises
    when the width is [0]. *)
Definition target_size (img : PIL.Image) : result (Q * Q) :=
  let target_width := 2 * RL.inch in
  if (PIL.width img =? 0)%Z then Raise ZeroDivisionError
  else Ok (target_width,
           inject_Z (PIL.height img) * target_width / inject_Z (PIL.width img)).

(** Lines 104 to 123, for an image and its target size. *)
Definition place (page_size : Q * Q) (s : Layout) (img : PIL.Image)
  (target_width target_height : Q) : Layout :=
  let (page_width, page_height) := page_size in
  let s :=
    if Qgtb (current_x s + target_width) (page_width - RL.inch) then
      let current_y := current_y s - (max_row_height s + 0.2 * RL.inch) in
      let current_x := RL.inch in
      let max_row_height := 0 in
      if Qltb (current_y - target_height) RL.inch then
        mkLayout (RL.showPage (canvas s)) RL.inch (page_height - RL.inch) max_row_height
      else
        mkLayout (canvas s) current_x current_y max_row_height
    else s in
  mkLayout
    (RL.drawImage (canvas s) img (current_x s) (current_y s - target_height)
                  target_width target_height)
    (current_x s + (target_width + 0.2 * RL.inch))
    (current_y s)
    (py_max (max_row_height s) target_height).

(** The body of the [try] (lines 93 to 123).  [ImageReader] and
    [drawImage] are taken not to raise, so that every statement that can
    raise comes before the first assignment to a variable of the loop. *)
Definition try_body (input_dir : Dir) (page_size : Q * Q) (s : Layout)
  (filename : string) : result Layout :=
  img <- preprocess_image input_dir filename ;;
  size <- target_size img ;;
  Ok (place page_size s img (fst size) (snd size)).

(** One turn of the loop: [except Exception] prints and goes on. *)
Definition loop_body (input_dir : Dir) (page_size : Q * Q) (s : Layout)
  (filename : string) : Layout :=
  match try_body input_dir page_size s filename with
  | Ok s' => s'
  | Raise _ => s
  end.

Definition initial_layout (page_size : Q * Q) (c : RL.Canvas) : Layout :=
  mkLayout c RL.inch (snd page_size - RL.inch) 0.

Definition generate_pdf (input_dir : Dir) (page_size : Q * Q) : RL.Canvas :=
  let (page_width, page_height) := page_size in
  let c := RL.Canvas_new in
  match image_files input_dir with
  | [] =>
      let c := RL.drawString c RL.inch (page_height - RL.inch) "No images found." in
      RL.save c
  | files =>
      let s := fold_left (loop_body input_dir page_size) files
                         (initial_layout page_size c) in
      RL.save (canvas s)
  end.

(* ------------------------------------------------------------------ *)
(** ** Notions used to state the properties *)

(** The three ways through lines 104 to 123: the image goes on the current
    row, on a new row of the same page, or on a new page. *)
Inductive place_spec (page_width page_height : Q) (s : Layout)
  (img : PIL.Image) (tw th : Q) : Layout -> Prop :=
| place_same_row :
    current_x s + tw <= page_width - RL.inch ->
    place_spec page_width page_height s img tw th
      (mkLayout
         (RL.drawImage (canvas s) img (current_x s) (current_y s - th) tw th)
         (current_x s + (tw + 0.2 * RL.inch))
         (current_y s)
         (py_max (max_row_height s) th))
| place_new_row :
    page_width - RL.inch < current_x s + tw ->
    RL.inch <= current_y s - (max_row_height s + 0.2 * RL.inch) - th ->
    place_spec page_width page_height s img tw th
      (mkLayout
         (RL.drawImage (canvas s) img RL.inch
            (current_y s - (max_row_height s + 0.2 * RL.inch) - th) tw th)
         (RL.inch + (tw + 0.2 * RL.inch))
         (current_y s - (max_row_height s + 0.2 * RL.inch))
         (py_max 0 th))
| place_new_page :
    page_width - RL.inch < current_x s + tw ->
    current_y s - (max_row_height s + 0.2 * RL.inch) - th < RL.inch ->
    place_spec page_width page_height s img tw th
      (mkLayout
         (RL.drawImage (RL.showPage (canvas s)) img RL.inch
            (page_height - RL.inch - th) tw th)
         (RL.inch + (tw + 0.2 * RL.inch))
         (page_height - RL.inch)
         (py_max 0 th)).


(** What is drawn for one file name: nothing when the [try] raises, else
    the image with the size it is drawn at. *)
Definition sized (input_dir : Dir) (filename : string) : list (PIL.Image * Q * Q) :=
  match (img <- preprocess_image input_dir filename ;;
         size <- target_size img ;;
         Ok (img, fst size, snd size)) with
  | Ok x => [x]
  | Raise _ => []
  end.

(** Position and size of a placement, fractions reduced. *)
Definition rectangle_of (p : Placement) : nat * Q * Q * Q * Q :=
  (pageIndex p, Qred (px p), Qred (py p), Qred (pw p), Qred (ph p)).

(** The image of a placement and the size it has on the page. *)
Definition footprint (p : Placement) : PIL.Image * Q * Q := (image p, pw p, ph p).

(** No two placements of a list, at different positions and on the same
    page, intersect. *)
Definition NoOverlap (l : list Placement) : Prop :=
  ForallOrdPairs (fun p q => pageIndex p = pageIndex q -> ~ intersect p q) l.

(** The order of step 1 of the packing algorithm of the design: an earlier
    rectangle is taller than a later one, or as tall and at least as wide. *)
Definition decreasing_height (p q : Placement) : Prop :=
  ph q < ph p \/ (ph q == ph p /\ pw q <= pw p).

(** The larger of the two lengths of a rectangle. *)
Definition larger_dimension (w h : Q) : Q := if Qle_bool w h then h else w.

(** The invariant of the loop behind the absence of overlaps: every
    placement of the page being written lies in the current row, a gutter
    left of [current_x] and not lower than the row is high, or a gutter
    above the current row. *)
Definition row_inv (s : Layout) : Prop :=
  0 <= max_row_height s /\
  NoOverlap (placements (canvas s)) /\
  Forall (fun p =>
            (pageIndex p <= pageCount (canvas s))%nat /\
            (pageIndex p = pageCount (canvas s) ->
             (px p + pw p + 0.2 * RL.inch <= current_x s /\
              current_y s - max_row_height s <= py p) \/
             current_y s + 0.2 * RL.inch <= py p))
         (placements (canvas s)).

(** The margins a placement keeps on a page: left and top always, right
    on a page at least four inches wide. *)
Definition within_margins (page_size : Q * Q) (p : Placement) : Prop :=
  RL.inch <= px p /\
  py p + ph p <= snd page_size - RL.inch /\
  (4 * RL.inch <= fst page_size -> px p + pw p <= fst page_size - RL.inch).

Definition bounds_inv (page_size : Q * Q) (s : Layout) : Prop :=
  RL.inch <= current_x s /\
  current_y s <= snd page_size - RL.inch /\
  0 <= max_row_height s /\
  Forall (within_margins page_size) (placements (canvas s)).

(* ------------------------------------------------------------------ *)
(** ** Concrete directories and images used as examples *)

Definition rgb (w h : Z) : PIL.Image :=
  PIL.mkImage "RGB" false w h (Some (fun _ => None)).

(** Two files listed out of order: a square image and one twice as high
    as wide. *)
Definition dir_two : Dir :=
  mkDir ["b.png"; "a.png"]
        (fun f => if f =? "a.png" then Some (rgb 1 1)
                  else if f =? "b.png" then Some (rgb 1 2)
                  else None).

(** The same files as [dir_two], listed in the other order. *)
Definition dir_two' : Dir :=
  mkDir ["a.png"; "b.png"] (contents dir_two).

(** One image ten times as high as wide. *)
Definition dir_tall : Dir :=
  mkDir ["t.png"] (fun f => if f =? "t.png" then Some (rgb 1 10) else None).

(** One image of 1440 by 720 pixels: 20 by 10 inches at 72 pixels an inch. *)
Definition dir_wide : Dir :=
  mkDir ["w.jpg"] (fun f => if f =? "w.jpg" then Some (rgb 1440 720) else None).

(** A good image between two files that cannot be decoded. *)
Definition dir_broken : Dir :=
  mkDir ["x.png"; "m.PNG"; "a.jpeg"]
        (fun f => if f =? "m.PNG" then Some (rgb 3 2) else None).

(** Four images four times as high as wide. *)
Definition dir_four_tall : Dir :=
  mkDir ["1.png"; "2.png"; "3.png"; "4.png"] (fun _ => Some (rgb 1 4)).

(** No image file at all. *)
Definition dir_notes : Dir := mkDir ["notes.txt"; "png"] (fun _ => None).

(** A palette image with a transparent colour, as a PNG with a [tRNS]
    chunk opens. *)
Definition palette_image : PIL.Image :=
  PIL.mkImage "P" true 4 4 (Some (fun _ => None)).
Definition dir_palette : Dir :=
  mkDir ["p.png"] (fun f => if f =? "p.png" then Some palette_image else None).

(** US letter, 8.5 by 11 inches, and a page 3 inches wide. *)
Definition letter : Q * Q := (612, 792).
Definition narrow : Q * Q := (216, 792).

(** The four margins of the design, all of one inch here, in the
    coordinates of the canvas. *)
Definition claimed_bounds (page_size : Q * Q) (p : Placement) : Prop :=
  RL.inch <= px p /\
  RL.inch <= py p /\
  px p + pw p <= fst page_size - RL.inch /\
  py p + ph p <= snd page_size - RL.inch.

(* ------------------------------------------------------------------ *)
(** ** Further notions on the layout *)

(** Two placements are separated when the first ends a gutter (0.2 inch)
    left of the second, or the second ends a gutter below the first. *)
Definition separated (p q : Placement) : Prop :=
  px p + pw p + 0.2 * RL.inch <= px q \/
  py q + ph q + 0.2 * RL.inch <= py p.

(** The invariant of the loop behind the gutters: as [row_inv], with
    separation in place of the absence of intersection. *)
Definition gutter_inv (s : Layout) : Prop :=
  0 <= max_row_height s /\
  ForallOrdPairs (fun p q => pageIndex p = pageIndex q -> separated p q)
                 (placements (canvas s)) /\
  Forall (fun p =>
            (pageIndex p <= pageCount (canvas s))%nat /\
            (pageIndex p = pageCount (canvas s) ->
             (px p + pw p + 0.2 * RL.inch <= current_x s /\
              current_y s - max_row_height s <= py p) \/
             current_y s + 0.2 * RL.inch <= py p))
         (placements (canvas s)).

(** A page that holds an image. *)
Definition is_image_op (o : RL.Op) : bool :=
  match o with
  | RL.DrawImage _ _ _ _ _ => true
  | RL.DrawString _ _ _ => false
  end.

Definition has_image (ops : list RL.Op) : Prop := existsb is_image_op ops = true.

(** The invariant of the loop on pages: before the first image the canvas
    is new and [current_x] is the left margin; from then on the page being
    written holds an image, as does every emitted page but, on a page less
    than four inches wide, the first. *)
Definition pages_inv (page_size : Q * Q) (s : Layout) : Prop :=
  (canvas s = RL.Canvas_new /\ current_x s = RL.inch) \/
  (has_image (RL.code (canvas s)) /\
   Forall has_image (tl (RL.pages (canvas s))) /\
   (4 * RL.inch <= fst page_size -> Forall has_image (RL.pages (canvas s)))).

(** The column [k] of the grid: a multiple of the image width and gutter
    from the left margin. *)
Definition column (k : nat) : Q :=
  RL.inch + inject_Z (Z.of_nat k) * (2 * RL.inch + 0.2 * RL.inch).

Definition grid_inv (s : Layout) : Prop :=
  (exists k, current_x s == column k) /\
  Forall (fun p => exists k, px p == column k) (placements (canvas s)).

(** On the page of the script there is room for two columns. *)
Definition two_columns_inv (s : Layout) : Prop :=
  (current_x s == column 0 \/ current_x s == column 1 \/ current_x s == column 2) /\
  Forall (fun p => px p == column 0 \/ px p == column 1) (placements (canvas s)).

(** An image on which [get_bounding_box_of_visible_area] looks for band
    ["A"]. *)
Definition alpha_tested (image : PIL.Image) : bool :=
  existsb (String.eqb (PIL.mode image)) ["RGBA"; "LA"]
  || ((PIL.mode image =? "P") && PIL.info_transparency image).

(** A palette image with a ['transparency'] entry. *)
Definition palette_transparency (image : PIL.Image) : bool :=
  (PIL.mode image =? "P") && PIL.info_transparency image.

(* ------------------------------------------------------------------ *)
(** ** The main block (lines 161 to 165) *)

(** [input_dir] is [None] when [os.path.exists(INPUT_DIR)] is false; the
    script then prints a message and writes nothing. *)
Definition main (input_dir : option Dir) : option RL.Canvas :=
  match input_dir with
  | None => None
  | Some d => Some (generate_pdf d PAGE_SIZE)
  end.

(* ------------------------------------------------------------------ *)
(** ** [compress_images] (lines 138 to 156) *)

(** The keyword argument given to [image.save]. *)
Inductive SaveOptions : Type :=
| no_options
| compress_level (n : Z)
| quality (n : Z).

Section Files.

(** The content of a file, and the two codecs of Pillow: what
    [Image.open] reads from a content (the format and the image; [None]
    when it raises), and what [image.save] writes for a path, an image, a
    format ([None] when the format is left to the extension of the path)
    and an option ([None] when it raises, as it does for an image whose
    pixels cannot be decoded and for a path that cannot be written).
    [debris] is what a [save] that raises leaves at the path, given what
    was there. *)
Variable bytes : Type.
Variable decode : bytes -> option (string * PIL.Image).
Variable encode : string -> PIL.Image -> option string -> SaveOptions -> option bytes.
Variable debris : string -> PIL.Image -> option bytes -> option bytes.

(** The file system: [samefile p q] tells whether two different path
    strings name one file ([os.path.samefile]), and [writable p] whether a
    file can be created or replaced at [p]. *)
Variable samefile : string -> string -> bool.
Variable writable : string -> bool.

Definition same_file (p q : string) : bool := String.eqb p q || samefile p q.

(** The files, by path. *)
Definition Files : Type := string -> option bytes.

(** Writing at a path changes what every path of the same file reads. *)
Definition write (fs : Files) (path : string) (content : option bytes) : Files :=
  fun q => if same_file q path then content else fs q.

(** [Image.open(path)], with the format. *)
Definition Image_open_file (fs : Files) (path : string) : result (string * PIL.Image) :=
  match fs path with
  | None => Raise OSError
  | Some b =>
      match decode b with
      | None => Raise OSError
      | Some r => Ok r
      end
  end.

(** [image.save(path, format, option)]; which exception a failure raises
    does not matter to the caller, that catches them all. *)
Definition Image_save (fs : Files) (path : string) (image : PIL.Image)
  (format : option string) (opts : SaveOptions) : result unit * Files :=
  match encode path image format opts with
  | Some b => (Ok tt, write fs path (Some b))
  | None => (Raise ValueError, write fs path (debris path image (fs path)))
  end.

(** [shutil.copyfile(src, dst)]: raises when [src] is missing, when [src]
    and [dst] are the same file, and when [dst] cannot be written; it then
    leaves the files as they are. *)
Definition copyfile (fs : Files) (src dst : string) : result unit * Files :=
  match fs src with
  | None => (Raise OSError, fs)
  | Some b =>
      if same_file src dst then (Raise OSError, fs)
      else if writable dst then (Ok tt, write fs dst (Some b))
      else (Raise OSError, fs)
  end.

(** Python's [max(a, b)] on integers. *)
Definition py_max_int (a b : Z) : Z := if (a <? b)%Z then b else a.

(** Line 147. *)
Definition quality_level (compression_level : Z) : Z :=
  py_max_int 1 (95 - compression_level * 10).

Definition compress_images (fs : Files) (input_image_path output_image_path : string)
  (compression_level : Z) : result string * Files :=
  let try_block : result unit * Files :=
    match Image_open_file fs input_image_path with
    | Raise e => (Raise e, fs)
    | Ok (format, image) =>
        if format =? "PNG" then
          Image_save fs output_image_path image (Some "PNG")
                     (compress_level compression_level)
        else if existsb (String.eqb format) ["JPEG"; "JPG"] then
          Image_save fs output_image_path (PIL.convert image "RGB") (Some "JPEG")
                     (quality (quality_level compression_level))
        else
          Image_save fs output_image_path image None no_options
    end in
  match try_block with
  | (Ok _, fs) => (Ok output_image_path, fs)
  | (Raise _, fs) =>
      match copyfile fs input_image_path output_image_path with
      | (Ok _, fs) => (Ok output_image_path, fs)
      | (Raise e, fs) => (Raise e, fs)
      end
  end.

(** The [try] block of [compress_images] on its own, to reason on it. *)
Definition compress_try_block (fs : Files) (input_image_path output_image_path : string)
  (compression_level : Z) : result unit * Files :=
  match Image_open_file fs input_image_path with
  | Raise e => (Raise e, fs)
  | Ok (format, image) =>
      if format =? "PNG" then
        Image_save fs output_image_path image (Some "PNG")
                (compress_level compression_level)
      else if existsb (String.eqb format) ["JPEG"; "JPG"] then
        Image_save fs output_image_path (PIL.convert image "RGB") (Some "JPEG")
                (quality (quality_level compression_level))
      else
        Image_save fs output_image_path image None no_options
  end.

(** What the script asks Pillow to write for an image of a given format:
    the image, the format and the option of the branch taken. *)
Definition attempted_save (format : string) (image : PIL.Image)
  (compression_level : Z) : PIL.Image * option string * SaveOptions :=
  if format =? "PNG" then (image, Some "PNG", compress_level compression_level)
  else if existsb (String.eqb format) ["JPEG"; "JPG"] then
    (PIL.convert image "RGB", Some "JPEG", quality (quality_level compression_level))
  else (image, None, no_options).

(** The [try] block raises: the input cannot be read as an image, or
    Pillow raises on the save that the script asks for. *)
Definition try_block_raises (output_image_path : string) (compression_level : Z)
  (b : bytes) : Prop :=
  match decode b with
  | None => True
  | Some (format, image) =>
      let '(im, fmt, opts) := attempted_save format image compression_level in
      encode output_image_path im fmt opts = None
  end.

End Files.

(** A small codec for examples: a content is a number; [0] is not an
    image, every other number reads as a JPEG of one pixel; saving as JPEG
    writes the quality, any other save raises. *)
Definition toy_decode (b : Z) : option (string * PIL.Image) :=
  if (b =? 0)%Z then None else Some ("JPEG", rgb 1 1).

Definition toy_encode (path : string) (image : PIL.Image) (format : option string)
  (opts : SaveOptions) : option Z :=
  match opts with
  | quality n => Some n
  | _ => None
  end.

(** A codec that reads every content as a PNG, which [toy_encode] cannot
    write. *)
Definition toy_decode_png (b : Z) : option (string * PIL.Image) :=
  Some ("PNG", rgb 1 1).

Definition toy_debris (path : string) (image : PIL.Image) (old : option Z) : option Z :=
  None.

(** [./notes.txt] is another name of [notes.txt]; nothing can be written
    in the missing directory [nodir]. *)
Definition toy_samefile (p q : string) : bool :=
  ((p =? "notes.txt") && (q =? "./notes.txt"))
  || ((p =? "./notes.txt") && (q =? "notes.txt")).

Definition toy_writable (p : string) : bool := negb (p =? "nodir/out.txt").

Definition toy_files : string -> option Z :=
  fun path => if path =? "in.jpg" then Some 7%Z
              else if path =? "notes.txt" then Some 0%Z
              else if path =? "./notes.txt" then Some 0%Z
              else None.

(** An image with an alpha band whose visible pixels fill the box
    [(2, 1, 7, 5)] of its 10 by 8 pixels. *)
Definition rgba_boxed : PIL.Image :=
  PIL.mkImage "RGBA" false 10 8
              (Some (fun name => if name =? "A" then Some (2, 1, 7, 5)%Z else None)).

Definition dir_rgba : Dir :=
  mkDir ["logo.png"] (fun f => if f =? "logo.png" then Some rgba_boxed else None).

(** A file cut short after its header: it opens as an RGB image of 8 by 8
    pixels, and its pixels cannot be decoded. *)
Definition truncated_image : PIL.Image := PIL.mkImage "RGB" false 8 8 None.

Definition dir_truncated : Dir :=
  mkDir ["cut.png"; "ok.png"]
        (fun f => if f =? "cut.png" then Some truncated_image
                  else if f =? "ok.png" then Some (rgb 2 1)
                  else None).

(* ================================================================== *)
(** * Properties *)

Local Open Scope list_scope.
Local Open Scope Q_scope.

Ltac q_norm := simpl in *; unfold RL.inch in *.
Ltac q_decide := unfold Qeq, Qlt, Qle; simpl; lia.

(* ------------------------------------------------------------------ *)
(** ** The script on small inputs *)

Example image_files_by_name :
  image_files (mkDir ["b.png"; "notes.txt"; "a.jpeg"; "B.PNG"; "c.gif"; "png"]
                     (fun _ => None))
  = ["B.PNG"; "a.jpeg"; "b.png"]%string.
Proof. reflexivity. Qed.

Example two_images_on_letter :
  map rectangle_of (placements (generate_pdf dir_two letter))
  = [(0%nat, 72, 576, 144, 144); (0%nat, Qred 230.4, 432, 144, 288)].
Proof. reflexivity. Qed.

(** Three images fill the first row; the fourth wraps, finds no room
    below and opens the second page. *)
Example four_tall_images_on_letter :
  map rectangle_of (placements (generate_pdf dir_four_tall letter))
  = [(0%nat, 72, 144, 144, 576); (0%nat, Qred 230.4, 144, 144, 576);
     (0%nat, Qred 388.8, 144, 144, 576); (1%nat, 72, 144, 144, 576)] /\
  pageCount (generate_pdf dir_four_tall letter) = 2%nat.
Proof. split; reflexivity. Qed.

Example page_size_is_A4 :
  fst PAGE_SIZE == 210 * 72 / 25.4 /\ snd PAGE_SIZE == 297 * 72 / 25.4.
Proof. split; reflexivity. Qed.

(* ------------------------------------------------------------------ *)
(** ** Strings: the order is total, [sorted] is canonical *)

Module PyStrFacts.

Import PyStr.

(** *** The order is a total order *)

Lemma ascii_compare_N (a b : ascii) :
  Ascii.compare a b = N.compare (N_of_ascii a) (N_of_ascii b).
Proof. reflexivity. Qed.

Lemma ascii_compare_refl (a : ascii) : Ascii.compare a a = Eq.
Proof. rewrite ascii_compare_N. apply N.compare_refl. Qed.

Lemma compare_refl (s : string) : String.compare s s = Eq.
Proof.
  induction s as [|c r IH]; simpl; [reflexivity|].
  now rewrite ascii_compare_refl.
Qed.

Lemma compare_lt_trans (a : string) :
  forall b c, String.compare a b = Lt -> String.compare b c = Lt ->
              String.compare a c = Lt.
Proof.
  induction a as [|x a IH]; intros [|y b] [|z c]; simpl;
    try discriminate; try reflexivity.
  rewrite !ascii_compare_N.
  destruct (N.compare_spec (N_of_ascii x) (N_of_ascii y)) as [E1|L1|G1];
    try discriminate;
    destruct (N.compare_spec (N_of_ascii y) (N_of_ascii z)) as [E2|L2|G2];
    try discriminate; intros H1 H2.
  - rewrite E1, E2, N.compare_refl. eauto.
  - rewrite E1. now apply N.compare_lt_iff in L2 as ->.
  - rewrite <- E2. now apply N.compare_lt_iff in L1 as ->.
  - assert (L : (N_of_ascii x < N_of_ascii z)%N) by lia.
    now apply N.compare_lt_iff in L as ->.
Qed.

Lemma le_refl (a : string) : le a a.
Proof. unfold le, String.leb. now rewrite compare_refl. Qed.

Lemma le_cases (a b : string) : le a b <-> a = b \/ String.compare a b = Lt.
Proof.
  unfold le, String.leb. split.
  - destruct (String.compare a b) eqn:E; try discriminate; intros _.
    + left. now apply String.compare_eq_iff.
    + now right.
  - intros [-> | ->]; [now rewrite compare_refl | reflexivity].
Qed.

Lemma le_trans (a b c : string) : le a b -> le b c -> le a c.
Proof.
  rewrite !le_cases. intros [-> | H1] [-> | H2]; auto.
  right. eapply compare_lt_trans; eauto.
Qed.

Lemma le_antisym (a b : string) : le a b -> le b a -> a = b.
Proof. apply String.leb_antisym. Qed.

Lemma le_total (a b : string) : le a b \/ le b a.
Proof. apply String.leb_total. Qed.

(** *** [sorted] returns the ascending rearrangement of its argument *)

Lemma insert_perm (x : string) (l : list string) :
  Permutation (x :: l) (insert x l).
Proof.
  induction l as [|y r IH]; simpl; [reflexivity|].
  destruct (String.leb x y); [reflexivity|].
  rewrite perm_swap. now constructor.
Qed.

Lemma sorted_perm (l : list string) : Permutation l (sorted l).
Proof.
  induction l as [|x r IH]; simpl; [constructor|].
  rewrite <- insert_perm. now constructor.
Qed.

Lemma insert_sorted (x : string) (l : list string) :
  StronglySorted le l -> StronglySorted le (insert x l).
Proof.
  induction 1 as [|y r Hs IH Hall]; simpl.
  - repeat constructor.
  - destruct (String.leb x y) eqn:E.
    + constructor; [now constructor|].
      constructor; [exact E|].
      eapply Forall_impl; [|exact Hall].
      intros z Hz. eapply le_trans; eauto.
    + constructor; [exact IH|].
      assert (Hyx : le y x) by (destruct (le_total x y); [unfold le in *; congruence|assumption]).
      eapply Permutation_Forall; [apply insert_perm|].
      now constructor.
Qed.

Lemma sorted_sorted (l : list string) : StronglySorted le (sorted l).
Proof.
  induction l as [|x r IH]; simpl; [constructor|].
  now apply insert_sorted.
Qed.

Lemma sorted_unique (l1 : list string) :
  forall l2, StronglySorted le l1 -> StronglySorted le l2 ->
             Permutation l1 l2 -> l1 = l2.
Proof.
  induction l1 as [|x r1 IH]; intros l2 H1 H2 HP.
  - now apply Permutation_nil in HP.
  - destruct l2 as [|y r2].
    + symmetry in HP. now apply Permutation_nil in HP.
    + inversion H1 as [|? ? Hs1 Ha1]; subst.
      inversion H2 as [|? ? Hs2 Ha2]; subst.
      assert (x = y) as ->.
      { apply le_antisym.
        - assert (Hin : In y (x :: r1))
            by (eapply Permutation_in; [symmetry; exact HP | now left]).
          destruct Hin as [-> | Hin]; [apply le_refl|].
          rewrite Forall_forall in Ha1. now apply Ha1.
        - assert (Hin : In x (y :: r2))
            by (eapply Permutation_in; [exact HP | now left]).
          destruct Hin as [-> | Hin]; [apply le_refl|].
          rewrite Forall_forall in Ha2. now apply Ha2. }
      f_equal. apply IH; auto.
      eapply Permutation_cons_inv; eauto.
Qed.

Lemma sorted_permutation_eq (l1 l2 : list string) :
  Permutation l1 l2 -> sorted l1 = sorted l2.
Proof.
  intros HP. apply sorted_unique; try apply sorted_sorted.
  rewrite <- !sorted_perm. exact HP.
Qed.

Lemma filter_permutation (A : Type) (f : A -> bool) (l1 l2 : list A) :
  Permutation l1 l2 -> Permutation (filter f l1) (filter f l2).
Proof.
  induction 1 as [|x l l' _ IH|x y l|l l' l'' _ IH1 _ IH2]; simpl.
  - constructor.
  - destruct (f x); [now constructor | exact IH].
  - destruct (f x), (f y); try reflexivity. apply perm_swap.
  - now transitivity (filter f l').
Qed.

End PyStrFacts.

(* ------------------------------------------------------------------ *)
(** ** Canvas: how each call changes the list of placements *)

Lemma placements_of_page_app (i : nat) (a b : list RL.Op) :
  placements_of_page i (a ++ b) = placements_of_page i a ++ placements_of_page i b.
Proof.
  induction a as [|[x y t|im x y w h] a IH]; simpl; [reflexivity|exact IH|].
  now rewrite IH.
Qed.

Lemma placements_from_app (pgs1 : list (list RL.Op)) :
  forall i pgs2,
    placements_from i (pgs1 ++ pgs2) =
    placements_from i pgs1 ++ placements_from (i + List.length pgs1) pgs2.
Proof.
  induction pgs1 as [|pg r IH]; intros i pgs2; simpl.
  - now rewrite Nat.add_0_r.
  - rewrite IH, <- app_assoc. simpl.
    now replace (S (i + List.length r))%nat with (i + S (List.length r))%nat by lia.
Qed.

Lemma placements_drawImage (c : RL.Canvas) (im : PIL.Image) (x y w h : Q) :
  placements (RL.drawImage c im x y w h) =
  placements c ++ [mkPlacement (pageCount c) im x y w h].
Proof.
  unfold placements, pageCount. simpl.
  rewrite !placements_from_app. simpl.
  now rewrite placements_of_page_app, !app_nil_r, <- app_assoc.
Qed.

Lemma placements_drawString (c : RL.Canvas) (x y : Q) (t : string) :
  placements (RL.drawString c x y t) = placements c.
Proof.
  unfold placements. simpl.
  rewrite !placements_from_app. simpl.
  now rewrite placements_of_page_app, !app_nil_r.
Qed.

Lemma placements_showPage (c : RL.Canvas) :
  placements (RL.showPage c) = placements c.
Proof.
  unfold placements. simpl.
  rewrite !placements_from_app. simpl.
  now rewrite !app_nil_r.
Qed.

Lemma placements_save (c : RL.Canvas) :
  placements (RL.save c) = placements c.
Proof.
  unfold RL.save. destruct (RL.code c) eqn:E.
  - unfold placements. simpl. now rewrite E.
  - rewrite <- (placements_showPage c). reflexivity.
Qed.


Lemma pageCount_showPage (c : RL.Canvas) :
  pageCount (RL.showPage c) = S (pageCount c).
Proof. unfold pageCount. simpl. rewrite length_app. simpl. lia. Qed.

Lemma pageCount_drawImage (c : RL.Canvas) (im : PIL.Image) (x y w h : Q) :
  pageCount (RL.drawImage c im x y w h) = pageCount c.
Proof. reflexivity. Qed.

(* ------------------------------------------------------------------ *)
(** ** The comparisons of the loop *)

Lemma Qgtb_true (a b : Q) : Qgtb a b = true <-> b < a.
Proof.
  unfold Qgtb. rewrite negb_true_iff, <- not_true_iff_false, Qle_bool_iff.
  split; [apply Qnot_le_lt | apply Qlt_not_le].
Qed.

Lemma Qgtb_false (a b : Q) : Qgtb a b = false <-> a <= b.
Proof. unfold Qgtb. now rewrite negb_false_iff, Qle_bool_iff. Qed.

Lemma Qltb_true (a b : Q) : Qltb a b = true <-> a < b.
Proof. apply Qgtb_true. Qed.

Lemma Qltb_false (a b : Q) : Qltb a b = false <-> b <= a.
Proof. apply Qgtb_false. Qed.

Lemma py_max_ge (a b : Q) : a <= py_max a b /\ b <= py_max a b.
Proof.
  unfold py_max. destruct (Qgtb b a) eqn:E.
  - apply Qgtb_true in E. lra.
  - apply Qgtb_false in E. lra.
Qed.

Lemma inch_val : RL.inch == 72.
Proof. reflexivity. Qed.

(* ------------------------------------------------------------------ *)
(** ** One placement *)

Lemma place_cases (page_width page_height : Q) (s : Layout)
  (img : PIL.Image) (tw th : Q) :
  place_spec page_width page_height s img tw th
             (place (page_width, page_height) s img tw th).
Proof.
  unfold place.
  destruct (Qgtb (current_x s + tw) (page_width - RL.inch)) eqn:E1.
  - apply Qgtb_true in E1.
    destruct (Qltb (current_y s - (max_row_height s + 0.2 * RL.inch) - th) RL.inch) eqn:E2.
    + apply Qltb_true in E2. now apply place_new_page.
    + apply Qltb_false in E2. now apply place_new_row.
  - apply Qgtb_false in E1. now apply place_same_row.
Qed.

Lemma place_footprints (page_size : Q * Q) (s : Layout) (img : PIL.Image) (tw th : Q) :
  map footprint (placements (canvas (place page_size s img tw th))) =
  map footprint (placements (canvas s)) ++ [(img, tw, th)].
Proof.
  destruct page_size as [page_width page_height].
  destruct (place_cases page_width page_height s img tw th); simpl;
    rewrite placements_drawImage, ?placements_showPage, map_app; reflexivity.
Qed.

(* ------------------------------------------------------------------ *)
(** ** The loop *)

Section Loop.

Variable input_dir : Dir.
Variable page_size : Q * Q.

(** A turn of the loop leaves the variables alone or places one image. *)
Lemma loop_body_cases (s : Layout) (filename : string) :
  (sized input_dir filename = [] /\
   loop_body input_dir page_size s filename = s) \/
  (exists img tw th,
      preprocess_image input_dir filename = Ok img /\
      target_size img = Ok (tw, th) /\
      sized input_dir filename = [(img, tw, th)] /\
      loop_body input_dir page_size s filename = place page_size s img tw th).
Proof.
  unfold loop_body, try_body, sized.
  destruct (preprocess_image input_dir filename) as [img|e]; simpl; [|now left].
  destruct (target_size img) as [[tw th]|e] eqn:Et; simpl; [|now left].
  right. exists img, tw, th. now rewrite Et.
Qed.

(** A property of the loop variables that every placement keeps holds
    after the loop. *)
Lemma loop_invariant (I : Layout -> Prop) :
  (forall s filename img tw th,
      I s ->
      preprocess_image input_dir filename = Ok img ->
      target_size img = Ok (tw, th) ->
      I (place page_size s img tw th)) ->
  forall files s, I s -> I (fold_left (loop_body input_dir page_size) files s).
Proof.
  intros Hplace files.
  induction files as [|f r IH]; intros s Hs; simpl; [exact Hs|].
  apply IH.
  destruct (loop_body_cases s f) as [[_ ->]|(img & tw & th & Hp & Ht & _ & ->)];
    eauto.
Qed.

(** The images drawn by the loop, in order, are those of the file names,
    in order. *)
Lemma loop_footprints (files : list string) :
  forall s,
    map footprint (placements (canvas (fold_left (loop_body input_dir page_size) files s))) =
    map footprint (placements (canvas s)) ++ flat_map (sized input_dir) files.
Proof.
  induction files as [|f r IH]; intros s; simpl.
  - now rewrite app_nil_r.
  - rewrite IH.
    destruct (loop_body_cases s f) as [[-> ->]|(img & tw & th & _ & _ & -> & ->)].
    + reflexivity.
    + now rewrite place_footprints, <- app_assoc.
Qed.

Lemma generate_pdf_footprints :
  map footprint (placements (generate_pdf input_dir page_size)) =
  flat_map (sized input_dir) (image_files input_dir).
Proof.
  unfold generate_pdf. destruct page_size as [page_width page_height] eqn:Eps.
  destruct (image_files input_dir) as [|f r] eqn:E.
  - now rewrite placements_save, placements_drawString.
  - rewrite placements_save, <- Eps, loop_footprints. reflexivity.
Qed.


End Loop.

(* ------------------------------------------------------------------ *)
(** ** Sizes *)

Lemma target_size_inv (img : PIL.Image) (tw th : Q) :
  target_size img = Ok (tw, th) ->
  PIL.width img <> 0%Z /\
  tw = 2 * RL.inch /\
  th = inject_Z (PIL.height img) * (2 * RL.inch) / inject_Z (PIL.width img).
Proof.
  unfold target_size.
  destruct (Z.eqb_spec (PIL.width img) 0) as [E|E]; [discriminate|].
  intros H. injection H as <- <-. auto.
Qed.

Lemma target_size_ok (img : PIL.Image) :
  PIL.width img <> 0%Z ->
  target_size img =
  Ok (2 * RL.inch, inject_Z (PIL.height img) * (2 * RL.inch) / inject_Z (PIL.width img)).
Proof.
  intros H. unfold target_size.
  now destruct (Z.eqb_spec (PIL.width img) 0).
Qed.

(* ------------------------------------------------------------------ *)
(** ** Lists of pairwise related elements *)

Lemma ForallOrdPairs_snoc (A : Type) (R : A -> A -> Prop) (l : list A) (a : A) :
  ForallOrdPairs R l -> Forall (fun x => R x a) l -> ForallOrdPairs R (l ++ [a]).
Proof.
  induction 1 as [|x l Hx Hl IH]; intros Ha; simpl.
  - repeat constructor.
  - inversion Ha; subst. constructor; [|now apply IH].
    apply Forall_app. split; [exact Hx | now constructor].
Qed.

Lemma ForallOrdPairs_nth (A : Type) (R : A -> A -> Prop) (l : list A) :
  ForallOrdPairs R l ->
  forall i j x y, (i < j)%nat -> nth_error l i = Some x -> nth_error l j = Some y ->
                  R x y.
Proof.
  induction 1 as [|a l Ha Hl IH]; intros i j x y Hij Hi Hj.
  - now destruct i.
  - destruct j as [|j]; [lia|]. simpl in Hj.
    destruct i as [|i]; simpl in Hi.
    + injection Hi as <-. rewrite Forall_forall in Ha.
      apply Ha. eapply nth_error_In; eauto.
    + apply (IH i j); auto. lia.
Qed.

(* ------------------------------------------------------------------ *)
(** ** The invariants of the loop *)

Lemma row_inv_place (page_size : Q * Q) (s : Layout) (img : PIL.Image) (th : Q) :
  row_inv s -> row_inv (place page_size s img (2 * RL.inch) th).
Proof.
  intros (Hm & Hno & Hall).
  destruct page_size as [page_width page_height].
  pose proof (py_max_ge (max_row_height s) th) as [Hmax1 Hmax2].
  pose proof (py_max_ge 0 th) as [Hmax3 Hmax4].
  destruct (place_cases page_width page_height s img (2 * RL.inch) th)
    as [Hfit|Hwrap Hroom|Hwrap Hfull];
    unfold row_inv; simpl;
    rewrite placements_drawImage, ?placements_showPage;
    (split; [lra|]); split.
  - (* same row *)
    apply ForallOrdPairs_snoc; [exact Hno|].
    eapply Forall_impl; [|exact Hall].
    intros p [_ Hp] Hpg. simpl in Hpg. specialize (Hp Hpg).
    unfold intersect. q_norm. intros (O1 & O2 & O3 & O4).
    destruct Hp as [[Hx _]|Hy]; lra.
  - apply Forall_app. split.
    + eapply Forall_impl; [|exact Hall].
      intros p [Hle Hp]. split; [exact Hle|].
      intros Hpg. specialize (Hp Hpg). q_norm.
      destruct Hp as [[Hx Hy]|Hy]; [left|right]; lra.
    + constructor; [|constructor]. simpl. split; [reflexivity|].
      intros _. left. q_norm. lra.
  - (* new row *)
    apply ForallOrdPairs_snoc; [exact Hno|].
    eapply Forall_impl; [|exact Hall].
    intros p [_ Hp] Hpg. simpl in Hpg. specialize (Hp Hpg).
    unfold intersect. q_norm. intros (O1 & O2 & O3 & O4).
    destruct Hp as [[_ Hy]|Hy]; lra.
  - apply Forall_app. split.
    + eapply Forall_impl; [|exact Hall].
      intros p [Hle Hp]. split; [exact Hle|].
      intros Hpg. specialize (Hp Hpg). right. q_norm.
      destruct Hp as [[_ Hy]|Hy]; lra.
    + constructor; [|constructor]. simpl. split; [reflexivity|].
      intros _. left. q_norm. lra.
  - (* new page *)
    apply ForallOrdPairs_snoc; [exact Hno|].
    eapply Forall_impl; [|exact Hall].
    intros p [Hle _] Hpg. simpl in Hpg.
    rewrite pageCount_showPage in Hpg. lia.
  - apply Forall_app. split.
    + eapply Forall_impl; [|exact Hall].
      intros p [Hle _]. rewrite pageCount_drawImage, pageCount_showPage.
      split; [lia|]. intros Hpg. lia.
    + constructor; [|constructor]. simpl. split; [reflexivity|].
      intros _. left. q_norm. lra.
Qed.

Lemma bounds_inv_place (page_size : Q * Q) (s : Layout) (img : PIL.Image) (th : Q) :
  bounds_inv page_size s -> bounds_inv page_size (place page_size s img (2 * RL.inch) th).
Proof.
  intros (Hx & Hy & Hm & Hall).
  destruct page_size as [page_width page_height].
  pose proof (py_max_ge (max_row_height s) th) as [Hmax1 Hmax2].
  pose proof (py_max_ge 0 th) as [Hmax3 Hmax4].
  destruct (place_cases page_width page_height s img (2 * RL.inch) th)
    as [Hfit|Hwrap Hroom|Hwrap Hfull];
    unfold bounds_inv; simpl;
    rewrite placements_drawImage, ?placements_showPage;
    q_norm; repeat (split; [lra|]);
    (apply Forall_app; split; [exact Hall|]);
    constructor; try constructor;
    unfold within_margins; q_norm; repeat split; intros; lra.
Qed.

Section Invariants.

Variable input_dir : Dir.
Variable page_size : Q * Q.

Lemma initial_row_inv : row_inv (initial_layout page_size RL.Canvas_new).
Proof.
  unfold row_inv. simpl. repeat split; try constructor. lra.
Qed.

Lemma initial_bounds_inv : bounds_inv page_size (initial_layout page_size RL.Canvas_new).
Proof.
  unfold bounds_inv.
  change (placements (canvas (initial_layout page_size RL.Canvas_new)))
    with (@nil Placement).
  q_norm. repeat split; (constructor || lra).
Qed.

Lemma generate_pdf_NoOverlap :
  NoOverlap (placements (generate_pdf input_dir page_size)).
Proof.
  unfold generate_pdf. destruct page_size as [page_width page_height] eqn:Eps.
  destruct (image_files input_dir) as [|f r].
  - rewrite placements_save, placements_drawString. constructor.
  - rewrite placements_save, <- Eps.
    apply (loop_invariant input_dir page_size row_inv);
      [|apply initial_row_inv].
    intros s filename img tw th Hs _ Ht.
    apply target_size_inv in Ht as (_ & -> & _).
    now apply row_inv_place.
Qed.

Lemma generate_pdf_within_margins :
  Forall (within_margins page_size) (placements (generate_pdf input_dir page_size)).
Proof.
  unfold generate_pdf. destruct page_size as [page_width page_height] eqn:Eps.
  destruct (image_files input_dir) as [|f r].
  - rewrite placements_save, placements_drawString. constructor.
  - rewrite placements_save, <- Eps.
    apply (loop_invariant input_dir page_size (bounds_inv page_size));
      [|apply initial_bounds_inv].
    intros s filename img tw th Hs _ Ht.
    apply target_size_inv in Ht as (_ & -> & _).
    now apply bounds_inv_place.
Qed.

End Invariants.

(* ------------------------------------------------------------------ *)
(** ** The bounding box and the cropped image *)

Lemma get_bounding_box_in_image (image : PIL.Image) (l u r b : Z) :
  PIL.wf_image image ->
  get_bounding_box_of_visible_area image = Ok (l, u, r, b) ->
  (0 <= l < r /\ r <= PIL.width image /\ 0 <= u < b /\ b <= PIL.height image)%Z.
Proof.
  intros (Hw & Hh & Ha). unfold get_bounding_box_of_visible_area.
  destruct (existsb _ _ || _); simpl.
  - unfold PIL.getchannel.
    destruct (PIL.decodable image); simpl; [|discriminate].
    destruct (existsb _ (PIL.getbands _)); simpl; [|discriminate].
    destruct (PIL.band_box image "A") as [[[[l' u'] r'] b']|]; simpl;
      intros H; injection H as <- <- <- <-; lia.
  - intros H; injection H as <- <- <- <-; lia.
Qed.

Lemma crop_ok (image img : PIL.Image) (l u r b : Z) :
  PIL.crop image (l, u, r, b) = Ok img ->
  PIL.decodable image = true /\
  PIL.mode img = PIL.mode image /\
  PIL.width img = (r - l)%Z /\ PIL.height img = (b - u)%Z.
Proof.
  unfold PIL.crop, PIL.decodable.
  destruct (PIL.pixels image); [|discriminate].
  intros H; injection H as <-. auto.
Qed.

Lemma crop_decodable (image : PIL.Image) (box : PIL.bbox) :
  PIL.decodable image = true -> exists img, PIL.crop image box = Ok img.
Proof.
  unfold PIL.crop, PIL.decodable. destruct box as [[[l u] r] b].
  destruct (PIL.pixels image); [|discriminate]. intros _. now eexists.
Qed.

Lemma crop_undecodable (image : PIL.Image) (box : PIL.bbox) :
  PIL.decodable image = false -> PIL.crop image box = Raise OSError.
Proof.
  unfold PIL.crop, PIL.decodable. destruct box as [[[l u] r] b].
  now destruct (PIL.pixels image).
Qed.

(** The two ways in which [preprocess_image] returns an image. *)
Lemma preprocess_image_inv (input_dir : Dir) (image_path : string) (img : PIL.Image) :
  preprocess_image input_dir image_path = Ok img ->
  (contents input_dir image_path = None /\ img = PIL.new "RGB" (1, 1)%Z) \/
  (exists image l u r b,
      contents input_dir image_path = Some image /\
      get_bounding_box_of_visible_area image = Ok (l, u, r, b) /\
      PIL.decodable image = true /\
      PIL.width img = (r - l)%Z /\ PIL.height img = (b - u)%Z /\
      PIL.mode img =
      (if negb (existsb (String.eqb (PIL.mode image)) ["RGB"; "RGBA"; "P"]%string)
       then "RGBA"%string else PIL.mode image)).
Proof.
  unfold preprocess_image, Image_open.
  destruct (contents input_dir image_path) as [image|]; cbn [bind].
  - destruct (get_bounding_box_of_visible_area image) as [[[[l u] r] b]|e] eqn:E;
      cbn [bind]; [|discriminate].
    destruct (PIL.crop image (l, u, r, b)) as [cropped|e] eqn:Ec;
      cbn [bind]; [|discriminate].
    apply crop_ok in Ec as (Hd & Hm & Hw & Hh).
    rewrite Hm.
    destruct (negb _) eqn:En; intros H; injection H as <-; right;
      exists image, l, u, r, b; rewrite En;
      repeat split; assumption || reflexivity.
  - intros H; injection H as <-. now left.
Qed.

(** Under Pillow's guarantee on what it opens, an image that
    [preprocess_image] returns has a positive width and height. *)
Lemma preprocess_image_positive (input_dir : Dir) (image_path : string) (img : PIL.Image) :
  (forall image, contents input_dir image_path = Some image -> PIL.wf_image image) ->
  preprocess_image input_dir image_path = Ok img ->
  (0 < PIL.width img /\ 0 < PIL.height img)%Z.
Proof.
  intros Hwf Hp.
  apply preprocess_image_inv in Hp
    as [[_ ->]|(image & l & u & r & b & Hc & E & _ & -> & -> & _)].
  - simpl. lia.
  - apply get_bounding_box_in_image in E; [lia | now apply Hwf].
Qed.


(* ------------------------------------------------------------------ *)
(** ** What is drawn *)

Lemma in_image_files (input_dir : Dir) (f : string) :
  In f (image_files input_dir) <->
  In f (listdir input_dir) /\ is_image_file f = true.
Proof.
  unfold image_files. rewrite <- filter_In. split; intros H.
  - eapply Permutation_in; [symmetry; apply PyStrFacts.sorted_perm|exact H].
  - eapply Permutation_in; [apply PyStrFacts.sorted_perm|exact H].
Qed.

(** Every placement is the image of a file of the listing, at the size of
    lines 100 to 102. *)
Lemma placement_origin (input_dir : Dir) (page_size : Q * Q) (p : Placement) :
  In p (placements (generate_pdf input_dir page_size)) ->
  exists f, In f (image_files input_dir) /\
            preprocess_image input_dir f = Ok (image p) /\
            target_size (image p) = Ok (pw p, ph p).
Proof.
  intros Hp. apply (in_map footprint) in Hp.
  rewrite generate_pdf_footprints in Hp.
  apply in_flat_map in Hp as (f & Hf & Hs).
  exists f. split; [exact Hf|]. revert Hs. unfold sized.
  destruct (preprocess_image input_dir f) as [img|e]; simpl; [|contradiction].
  destruct (target_size img) as [[tw th]|e] eqn:Et; simpl; [|contradiction].
  intros [H|[]]. unfold footprint in H. injection H as <- <- <-.
  now rewrite Et.
Qed.

(** Every file whose image can be sized is drawn. *)
Lemma sized_file_drawn (input_dir : Dir) (page_size : Q * Q) (f : string)
  (img : PIL.Image) :
  In f (image_files input_dir) ->
  preprocess_image input_dir f = Ok img ->
  PIL.width img <> 0%Z ->
  exists p, In p (placements (generate_pdf input_dir page_size)) /\
            image p = img /\
            target_size img = Ok (pw p, ph p).
Proof.
  intros Hf Hp Hw.
  pose proof (target_size_ok img Hw) as Ht.
  set (tw := 2 * RL.inch) in *.
  set (th := inject_Z (PIL.height img) * tw / inject_Z (PIL.width img)) in *.
  assert (Hin : In (img, tw, th)
                   (map footprint (placements (generate_pdf input_dir page_size)))).
  { rewrite generate_pdf_footprints. apply in_flat_map. exists f.
    split; [exact Hf|]. unfold sized. rewrite Hp. simpl. rewrite Ht. now left. }
  apply in_map_iff in Hin as (p & Hfp & Hin).
  unfold footprint in Hfp. injection Hfp as <- <- <-.
  exists p. auto.
Qed.

Lemma alpha_tested_modes (image : PIL.Image) :
  alpha_tested image = true ->
  palette_transparency image = false ->
  existsb (String.eqb "A") (PIL.getbands (PIL.mode image)) = true.
Proof.
  unfold alpha_tested, palette_transparency, PIL.getbands.
  intros Ht Hp. rewrite Hp, orb_false_r in Ht. simpl in Ht.
  destruct (String.eqb_spec (PIL.mode image) "RGBA") as [->|_]; [reflexivity|].
  destruct (String.eqb_spec (PIL.mode image) "LA") as [->|_]; [reflexivity|].
  discriminate.
Qed.

Lemma get_bounding_box_value (image : PIL.Image) :
  palette_transparency image = false ->
  get_bounding_box_of_visible_area image =
  if alpha_tested image && negb (PIL.decodable image) then Raise OSError
  else Ok (match (if alpha_tested image then PIL.band_box image "A" else None) with
           | Some b => b
           | None => (0, 0, PIL.width image, PIL.height image)%Z
           end).
Proof.
  intros Hp. unfold get_bounding_box_of_visible_area.
  fold (alpha_tested image).
  destruct (alpha_tested image) eqn:Ht; cbn [andb]; [|reflexivity].
  unfold PIL.getchannel.
  destruct (PIL.decodable image); cbn [negb bind]; [|reflexivity].
  now rewrite (alpha_tested_modes image Ht Hp).
Qed.

Lemma preprocess_image_succeeds (input_dir : Dir) (f : string) :
  (forall image, contents input_dir f = Some image ->
                 PIL.decodable image = true /\ palette_transparency image = false) ->
  exists img, preprocess_image input_dir f = Ok img.
Proof.
  intros Hok. unfold preprocess_image, Image_open.
  destruct (contents input_dir f) as [image|]; [|now eexists].
  destruct (Hok image eq_refl) as [Hd Hp].
  rewrite (get_bounding_box_value image Hp), Hd, andb_false_r. cbn [bind].
  match goal with
  | |- context [PIL.crop image ?box] =>
      destruct (crop_decodable image box Hd) as [cropped ->]
  end.
  cbn [bind]. now eexists.
Qed.

Lemma placements_of_page_index (i : nat) (ops : list RL.Op) (p : Placement) :
  In p (placements_of_page i ops) -> pageIndex p = i.
Proof.
  induction ops as [|[x y t|im x y w h] r IH]; simpl; [tauto|exact IH|].
  intros [<-|H]; [reflexivity | now apply IH].
Qed.





(* ================================================================== *)
(** * The claims *)

(* ------------------------------------------------------------------ *)
(** ** C1: the order in which placements are decided *)

(** C1, as the code has it: the files are visited in ascending order of
    their names (the image files of the listing, sorted as strings), and
    the images are drawn in that order, one for each file whose image can
    be sized.  The rectangles are not sorted by height. *)
Theorem C1_placements_follow_file_names (input_dir : Dir) (page_size : Q * Q) :
  StronglySorted PyStr.le (image_files input_dir) /\
  Permutation (filter is_image_file (listdir input_dir)) (image_files input_dir) /\
  map footprint (placements (generate_pdf input_dir page_size)) =
  flat_map (sized input_dir) (image_files input_dir).
Proof.
  split; [apply PyStrFacts.sorted_sorted|].
  split; [apply PyStrFacts.sorted_perm|].
  apply generate_pdf_footprints.
Qed.

(** C1, as the claim has it, fails: with [a.png] square and [b.png] twice
    as high as wide, the lower image is placed before the higher one. *)
Lemma C1_height_order_counterexample :
  ~ StronglySorted decreasing_height (placements (generate_pdf dir_two PAGE_SIZE)).
Proof.
  intros H.
  set (l := placements _) in H. vm_compute in l. subst l.
  inversion H as [|p l _ Hp]; subst.
  inversion Hp as [|q l' Hd _]; subst.
  unfold decreasing_height in Hd. simpl in Hd.
  destruct Hd as [Hd|[Hd _]]; revert Hd; q_decide.
Qed.

(* ------------------------------------------------------------------ *)
(** ** C2: no overlap *)

(** C2: two placements at different positions of the result that are on
    the same page do not intersect. *)
Theorem C2_no_overlap (input_dir : Dir) (page_size : Q * Q)
  (i j : nat) (p q : Placement) :
  i <> j ->
  nth_error (placements (generate_pdf input_dir page_size)) i = Some p ->
  nth_error (placements (generate_pdf input_dir page_size)) j = Some q ->
  pageIndex p = pageIndex q ->
  ~ intersect p q.
Proof.
  intros Hij Hi Hj Hpg.
  pose proof (generate_pdf_NoOverlap input_dir page_size) as Hno.
  destruct (Nat.lt_total i j) as [Hlt|[Heq|Hgt]]; [|contradiction|].
  - exact (ForallOrdPairs_nth Hno Hlt Hi Hj Hpg).
  - intros (O1 & O2 & O3 & O4).
    apply (ForallOrdPairs_nth Hno Hgt Hj Hi (eq_sym Hpg)).
    unfold intersect. auto.
Qed.

Lemma C2_no_overlap_witness :
  exists p q,
    nth_error (placements (generate_pdf dir_two PAGE_SIZE)) 0 = Some p /\
    nth_error (placements (generate_pdf dir_two PAGE_SIZE)) 1 = Some q /\
    pageIndex p = pageIndex q /\ ~ intersect p q.
Proof.
  do 2 eexists. split; [vm_compute; reflexivity|].
  split; [vm_compute; reflexivity|].
  split; [reflexivity|].
  eapply (@C2_no_overlap dir_two PAGE_SIZE 0 1); try (vm_compute; reflexivity).
  discriminate.
Defined.

(* ------------------------------------------------------------------ *)
(** ** C3: margins *)

(** C3, as the code has it: every placement starts at least one inch from
    the left edge and ends at least one inch below the top edge of the
    page, and, on a page at least four inches wide, ends at least one inch
    from the right edge.  The bottom margin is not part of the statement. *)
Theorem C3_margins_left_top_right (input_dir : Dir) (page_size : Q * Q)
  (p : Placement) :
  In p (placements (generate_pdf input_dir page_size)) ->
  RL.inch <= px p /\
  py p + ph p <= snd page_size - RL.inch /\
  (4 * RL.inch <= fst page_size -> px p + pw p <= fst page_size - RL.inch).
Proof.
  intros Hp.
  pose proof (generate_pdf_within_margins input_dir page_size) as H.
  rewrite Forall_forall in H. exact (H p Hp).
Qed.

Lemma C3_margins_left_top_right_witness :
  exists p, In p (placements (generate_pdf dir_two PAGE_SIZE)) /\
            RL.inch <= px p /\
            py p + ph p <= snd PAGE_SIZE - RL.inch /\
            (4 * RL.inch <= fst PAGE_SIZE -> px p + pw p <= fst PAGE_SIZE - RL.inch).
Proof.
  eexists. split; [vm_compute; left; reflexivity|].
  apply (@C3_margins_left_top_right dir_two PAGE_SIZE).
  vm_compute. left. reflexivity.
Defined.

(** C3, as the claim has it, fails twice: on an A4 page an image ten times
    as high as wide is drawn down to below the page, and on a page three
    inches wide a square image is drawn over the right margin. *)
Lemma C3_bounds_counterexample :
  ~ Forall (claimed_bounds PAGE_SIZE) (placements (generate_pdf dir_tall PAGE_SIZE)) /\
  ~ Forall (claimed_bounds narrow) (placements (generate_pdf dir_two narrow)).
Proof.
  split; intros H;
    set (l := placements _) in H; vm_compute in l; subst l;
    inversion H as [|p l (_ & Hb & Hr & _) _]; subst;
    [revert Hb | revert Hr]; q_decide.
Qed.

(* ------------------------------------------------------------------ *)
(** ** C4: determinism *)

Lemma fold_left_ext (A B : Type) (f g : A -> B -> A) (l : list B) :
  (forall a b, f a b = g a b) -> forall a, fold_left f l a = fold_left g l a.
Proof.
  intros H. induction l as [|b r IH]; intros a; simpl; [reflexivity|].
  now rewrite H, IH.
Qed.

Lemma loop_body_contents (d1 d2 : Dir) (page_size : Q * Q) :
  (forall f, contents d1 f = contents d2 f) ->
  forall s f, loop_body d1 page_size s f = loop_body d2 page_size s f.
Proof.
  intros H s f.
  unfold loop_body, try_body, preprocess_image, Image_open.
  now rewrite H.
Qed.

(** C4: the result depends on the set of files, their contents and the
    page size only: two directories that list the same names, in whatever
    order, with the same contents, give the same document (the same
    placements in the same order at the same coordinates, the same
    pages). *)
Theorem C4_deterministic (d1 d2 : Dir) (page_size : Q * Q) :
  Permutation (listdir d1) (listdir d2) ->
  (forall f, contents d1 f = contents d2 f) ->
  generate_pdf d1 page_size = generate_pdf d2 page_size.
Proof.
  intros HP HC.
  assert (E : image_files d1 = image_files d2).
  { unfold image_files. apply PyStrFacts.sorted_permutation_eq.
    now apply PyStrFacts.filter_permutation. }
  unfold generate_pdf. rewrite E.
  destruct page_size as [page_width page_height].
  destruct (image_files d2); [reflexivity|].
  f_equal. f_equal. apply fold_left_ext.
  now apply loop_body_contents.
Qed.

Lemma C4_deterministic_witness :
  Permutation (listdir dir_two) (listdir dir_two') /\
  generate_pdf dir_two PAGE_SIZE = generate_pdf dir_two' PAGE_SIZE.
Proof.
  assert (HP : Permutation (listdir dir_two) (listdir dir_two'))
    by apply perm_swap.
  split; [exact HP|].
  apply (@C4_deterministic dir_two dir_two' PAGE_SIZE HP).
  reflexivity.
Defined.

(* ------------------------------------------------------------------ *)
(** ** C5: a file that cannot be opened *)



(* ------------------------------------------------------------------ *)
(** ** C6: no clamping *)

(** C6, as the code has it: every image is drawn two inches wide, whatever
    its size in pixels and whatever the width of the page, with the height
    that keeps its proportions; no width is ever adjusted to the usable
    width of the page. *)
Theorem C6_width_is_two_inches (input_dir : Dir) (page_size : Q * Q)
  (p : Placement) :
  In p (placements (generate_pdf input_dir page_size)) ->
  pw p == 2 * RL.inch /\
  ph p == inject_Z (PIL.height (image p)) * (2 * RL.inch)
          / inject_Z (PIL.width (image p)).
Proof.
  intros Hp.
  apply placement_origin in Hp as (f & _ & _ & Ht).
  apply target_size_inv in Ht as (_ & -> & ->).
  split; reflexivity.
Qed.

Lemma C6_width_is_two_inches_witness :
  exists p, In p (placements (generate_pdf dir_wide letter)) /\
            pw p == 2 * RL.inch /\
            ph p == inject_Z (PIL.height (image p)) * (2 * RL.inch)
                    / inject_Z (PIL.width (image p)).
Proof.
  eexists. split; [vm_compute; left; reflexivity|].
  apply (@C6_width_is_two_inches dir_wide letter).
  vm_compute. left. reflexivity.
Defined.

(** C6, as the claim has it, fails: on a letter page, whose usable width
    is 6.5 inches, the image of 20 by 10 inches is not placed 6.5 inches
    wide and 3.25 inches high (it is placed 2 inches wide and 1 high). *)
Lemma C6_clamp_counterexample :
  ~ exists p, In p (placements (generate_pdf dir_wide letter)) /\
              pw p == 6.5 * RL.inch /\ ph p == 3.25 * RL.inch.
Proof.
  intros (p & Hp & Hw & _).
  apply placement_origin in Hp as (_ & _ & _ & Ht).
  apply target_size_inv in Ht as (_ & E & _).
  rewrite E in Hw. revert Hw. q_decide.
Qed.

(* ------------------------------------------------------------------ *)
(** ** C7: the sizing step *)

Lemma larger_dimension_max (w h : Q) :
  (h <= w -> larger_dimension w h == w) /\ (w <= h -> larger_dimension w h == h).
Proof.
  unfold larger_dimension. destruct (Qle_bool w h) eqn:E.
  - apply Qle_bool_iff in E. split; intros; lra.
  - assert (~ w <= h) by (rewrite <- Qle_bool_iff; congruence).
    split; intros; lra.
Qed.

(** C7, as the code has it: the sizing step gives every image a width of
    two inches and the height that keeps its proportions; the larger of
    the two lengths is two inches for an image at least as wide as high,
    and more than two inches for an image higher than wide. *)
Theorem C7_sizing_fixes_the_width (img : PIL.Image) :
  (0 < PIL.width img)%Z ->
  (0 < PIL.height img)%Z ->
  exists th,
    target_size img = Ok (2 * RL.inch, th) /\
    th * inject_Z (PIL.width img) == 2 * RL.inch * inject_Z (PIL.height img) /\
    ((PIL.height img <= PIL.width img)%Z ->
     larger_dimension (2 * RL.inch) th == 2 * RL.inch) /\
    ((PIL.width img < PIL.height img)%Z ->
     2 * RL.inch < larger_dimension (2 * RL.inch) th).
Proof.
  intros Hw Hh.
  exists (inject_Z (PIL.height img) * (2 * RL.inch) / inject_Z (PIL.width img)).
  split; [apply target_size_ok; lia|].
  set (w := inject_Z (PIL.width img)).
  set (h := inject_Z (PIL.height img)).
  assert (Hw' : 0 < w) by (unfold w; rewrite <- (Zlt_Qlt 0); exact Hw).
  assert (Hh' : 0 < h) by (unfold h; rewrite <- (Zlt_Qlt 0); exact Hh).
  assert (Heq : h * (2 * RL.inch) / w * w == 2 * RL.inch * h) by (field; lra).
  split; [exact Heq|].
  pose proof (larger_dimension_max (2 * RL.inch) (h * (2 * RL.inch) / w)) as [L1 L2].
  unfold RL.inch in *.
  split; intros Hc.
  - apply L1. rewrite Zle_Qle in Hc. fold w h in Hc.
    apply Qle_shift_div_r; [exact Hw'|]. nra.
  - rewrite Zlt_Qlt in Hc. fold w h in Hc.
    assert (Hlt : 2 * 72 < h * (2 * 72) / w)
      by (apply Qlt_shift_div_l; [exact Hw'|]; nra).
    rewrite L2; lra.
Qed.

Lemma C7_sizing_fixes_the_width_witness :
  exists th,
    target_size (rgb 1 2) = Ok (2 * RL.inch, th) /\
    2 * RL.inch < larger_dimension (2 * RL.inch) th.
Proof.
  destruct (@C7_sizing_fixes_the_width (rgb 1 2)) as (th & Ht & _ & _ & Hl).
  - simpl. lia.
  - simpl. lia.
  - exists th. split; [exact Ht|]. apply Hl. simpl. lia.
Defined.

(** C7, as the claim has it, fails: for an image of 1 by 2 pixels the
    larger length after sizing is four inches, not the two inches of the
    cap. *)
Lemma C7_larger_dimension_counterexample :
  ~ exists tw th, target_size (rgb 1 2) = Ok (tw, th) /\
                  larger_dimension tw th == 2 * RL.inch.
Proof.
  intros (tw & th & Ht & Hl).
  apply target_size_inv in Ht as (_ & -> & ->).
  revert Hl. vm_compute. discriminate.
Qed.

(* ------------------------------------------------------------------ *)
(** ** C8: proportions *)

(** C8: the width and height of every placement are in the proportion of
    the width and height of the image it draws (no placement is clamped),
    here exactly, hence to within a millionth. *)
Theorem C8_aspect_preserved (input_dir : Dir) (page_size : Q * Q)
  (p : Placement) :
  (forall f image, contents input_dir f = Some image -> PIL.wf_image image) ->
  In p (placements (generate_pdf input_dir page_size)) ->
  Qabs (pw p / ph p
        - inject_Z (PIL.width (image p)) / inject_Z (PIL.height (image p)))
  < 1e-6.
Proof.
  intros Hwf Hp.
  apply placement_origin in Hp as (f & _ & Hpre & Ht).
  apply preprocess_image_positive in Hpre as [Hw Hh]; [|apply Hwf].
  apply target_size_inv in Ht as (_ & -> & ->).
  set (w := inject_Z (PIL.width (image p))).
  set (h := inject_Z (PIL.height (image p))).
  assert (Hw' : 0 < w) by (unfold w; rewrite <- (Zlt_Qlt 0); exact Hw).
  assert (Hh' : 0 < h) by (unfold h; rewrite <- (Zlt_Qlt 0); exact Hh).
  assert (E : 2 * RL.inch / (h * (2 * RL.inch) / w) - w / h == 0).
  { unfold RL.inch. field. split; lra. }
  rewrite E. reflexivity.
Qed.

Lemma C8_aspect_preserved_witness :
  exists p, In p (placements (generate_pdf dir_two PAGE_SIZE)) /\
            Qabs (pw p / ph p
                  - inject_Z (PIL.width (image p)) / inject_Z (PIL.height (image p)))
            < 1e-6.
Proof.
  eexists. split; [vm_compute; right; left; reflexivity|].
  apply (@C8_aspect_preserved dir_two PAGE_SIZE).
  - intros f im. simpl.
    destruct (f =? "a.png")%string; [|destruct (f =? "b.png")%string];
      intros H; inversion H; subst; unfold PIL.wf_image; simpl; lia.
  - vm_compute. right. left. reflexivity.
Defined.

(* ------------------------------------------------------------------ *)
(** ** C9: no image file *)

(** C9: when the listing has no image file, the document has no
    placement and exactly one page, and it is saved. *)
Theorem C9_no_images_one_page (input_dir : Dir) (page_size : Q * Q) :
  (forall f, In f (listdir input_dir) -> is_image_file f = false) ->
  placements (generate_pdf input_dir page_size) = [] /\
  pageCount (generate_pdf input_dir page_size) = 1%nat /\
  RL.saved (generate_pdf input_dir page_size) = true.
Proof.
  intros Hnone.
  assert (E : image_files input_dir = []).
  { unfold image_files.
    replace (filter is_image_file (listdir input_dir)) with (@nil string);
      [reflexivity|].
    symmetry. induction (listdir input_dir) as [|f r IH]; simpl; [reflexivity|].
    rewrite (Hnone f) by now left.
    apply IH. intros g Hg. apply Hnone. now right. }
  unfold generate_pdf. rewrite E.
  destruct page_size as [page_width page_height].
  repeat split.
Qed.

Lemma C9_no_images_one_page_witness :
  placements (generate_pdf dir_notes PAGE_SIZE) = [] /\
  pageCount (generate_pdf dir_notes PAGE_SIZE) = 1%nat /\
  RL.saved (generate_pdf dir_notes PAGE_SIZE) = true.
Proof.
  apply (@C9_no_images_one_page dir_notes PAGE_SIZE).
  intros f [<-|[<-|[]]]; reflexivity.
Defined.

(* ------------------------------------------------------------------ *)
(** ** C10: the sizer is not total *)

(** C10 fails on a palette image with a transparent colour: the test of
    [get_bounding_box_of_visible_area] sends it to [getchannel('A')], a band
    that a palette image does not have, so [preprocess_image] raises instead
    of returning an image, and [generate_pdf] drops the file. *)
Theorem C10_palette_transparency_raises :
  PIL.wf_image palette_image /\
  get_bounding_box_of_visible_area palette_image = Raise ValueError /\
  preprocess_image dir_palette "p.png" = Raise ValueError /\
  placements (generate_pdf dir_palette PAGE_SIZE) = [].
Proof.
  repeat split; unfold PIL.wf_image; simpl; lia.
Qed.

(* ================================================================== *)
(** * Further properties of the code *)

(* ------------------------------------------------------------------ *)
(** ** The bounding box and the cropped image *)

Lemma band_box_decodable (image : PIL.Image) (name : string) (box : PIL.bbox) :
  PIL.band_box image name = Some box -> PIL.decodable image = true.
Proof.
  unfold PIL.band_box, PIL.decodable. now destruct (PIL.pixels image).
Qed.

(** X1.  For an image as Pillow opens it, other than a palette image with a
    transparent colour, the helper returns a box: it lies in the image and
    is at least one pixel wide and high.  The one exception is an image
    whose band ["A"] has to be read and whose pixels cannot be decoded:
    there the helper raises [OSError]. *)
Theorem X_bounding_box_total (image : PIL.Image) :
  PIL.wf_image image ->
  palette_transparency image = false ->
  if alpha_tested image && negb (PIL.decodable image)
  then get_bounding_box_of_visible_area image = Raise OSError
  else exists l u r b,
      get_bounding_box_of_visible_area image = Ok (l, u, r, b) /\
      (0 <= l < r /\ r <= PIL.width image /\
       0 <= u < b /\ b <= PIL.height image)%Z.
Proof.
  intros Hwf Hp.
  pose proof (get_bounding_box_value image Hp) as E.
  destruct (alpha_tested image && negb (PIL.decodable image)); [exact E|].
  destruct (match (if alpha_tested image then PIL.band_box image "A" else None) with
            | Some b => b
            | None => (0, 0, PIL.width image, PIL.height image)%Z
            end) as [[[l u] r] b] eqn:Eb.
  exists l, u, r, b. split; [exact E|].
  eapply get_bounding_box_in_image; eauto.
Qed.

Lemma X_bounding_box_total_witness :
  exists l u r b,
    get_bounding_box_of_visible_area rgba_boxed = Ok (l, u, r, b) /\
    (0 <= l < r /\ r <= PIL.width rgba_boxed /\
     0 <= u < b /\ b <= PIL.height rgba_boxed)%Z.
Proof.
  assert (Hwf : PIL.wf_image rgba_boxed) by (unfold PIL.wf_image; simpl; lia).
  exact (@X_bounding_box_total rgba_boxed Hwf eq_refl).
Defined.

(** X2.  An image with an alpha band that has visible pixels is cropped to the
    box of those pixels: the image returned has the size of the box. *)
Theorem X_cropped_to_visible_box (input_dir : Dir) (image_path : string)
  (image : PIL.Image) (l u r b : Z) :
  contents input_dir image_path = Some image ->
  existsb (String.eqb (PIL.mode image)) ["RGBA"; "LA"] = true ->
  PIL.band_box image "A" = Some (l, u, r, b) ->
  exists img,
    preprocess_image input_dir image_path = Ok img /\
    PIL.width img = (r - l)%Z /\ PIL.height img = (b - u)%Z.
Proof.
  intros Hc Hm Hb.
  assert (Ht : alpha_tested image = true) by (unfold alpha_tested; now rewrite Hm).
  assert (Hp : palette_transparency image = false).
  { unfold palette_transparency. simpl in Hm.
    destruct (String.eqb_spec (PIL.mode image) "RGBA") as [->|_]; [reflexivity|].
    destruct (String.eqb_spec (PIL.mode image) "LA") as [->|_]; [reflexivity|].
    discriminate. }
  pose proof (band_box_decodable image "A" Hb) as Hd.
  destruct (crop_decodable image (l, u, r, b) Hd) as [cropped Ec].
  pose proof Ec as Ec'. apply crop_ok in Ec' as (_ & _ & Hw & Hh).
  unfold preprocess_image, Image_open. rewrite Hc.
  rewrite (get_bounding_box_value image Hp), Ht, Hd, Hb. cbn [andb negb bind].
  rewrite Ec. cbn [bind].
  eexists. split; [reflexivity|].
  destruct (negb _); split; assumption.
Qed.

Lemma X_cropped_to_visible_box_witness :
  exists img,
    preprocess_image dir_rgba "logo.png" = Ok img /\
    PIL.width img = 5%Z /\ PIL.height img = 4%Z.
Proof.
  apply (@X_cropped_to_visible_box dir_rgba "logo.png" rgba_boxed 2 1 7 5);
    reflexivity.
Defined.

(** X3.  An image that is fully transparent, or on which no alpha band is
    looked for, keeps its size when its pixels can be decoded: the missing
    box falls back to the whole image.  When the file opens but its pixels
    cannot be decoded, [preprocess_image] raises [OSError]: the failure
    comes after the [try] around [Image.open]. *)
Theorem X_uncropped_without_visible_box (input_dir : Dir) (image_path : string)
  (image : PIL.Image) :
  contents input_dir image_path = Some image ->
  palette_transparency image = false ->
  alpha_tested image = false \/ PIL.band_box image "A" = None ->
  if PIL.decodable image
  then exists img,
      preprocess_image input_dir image_path = Ok img /\
      PIL.width img = PIL.width image /\ PIL.height img = PIL.height image
  else preprocess_image input_dir image_path = Raise OSError.
Proof.
  intros Hc Hp Hnone.
  unfold preprocess_image, Image_open. rewrite Hc.
  rewrite (get_bounding_box_value image Hp).
  assert (E : (if alpha_tested image then PIL.band_box image "A" else None) = None).
  { destruct Hnone as [-> | ->]; [reflexivity | now destruct (alpha_tested image)]. }
  rewrite E.
  destruct (PIL.decodable image) eqn:Hd.
  - rewrite andb_false_r. cbn [bind].
    destruct (crop_decodable image (0, 0, PIL.width image, PIL.height image)%Z Hd)
      as [cropped Ec].
    pose proof Ec as Ec'. apply crop_ok in Ec' as (_ & _ & Hw & Hh).
    rewrite Ec. cbn [bind].
    eexists. split; [reflexivity|].
    destruct (negb _); split; simpl; lia.
  - destruct (alpha_tested image); cbn [andb negb bind]; [reflexivity|].
    now rewrite crop_undecodable.
Qed.

Lemma X_uncropped_without_visible_box_witness :
  (exists img,
      preprocess_image dir_wide "w.jpg" = Ok img /\
      PIL.width img = 1440%Z /\ PIL.height img = 720%Z) /\
  preprocess_image dir_truncated "cut.png" = Raise OSError.
Proof.
  split.
  - exact (@X_uncropped_without_visible_box dir_wide "w.jpg" (rgb 1440 720)
             eq_refl eq_refl (or_introl eq_refl)).
  - exact (@X_uncropped_without_visible_box dir_truncated "cut.png" truncated_image
             eq_refl eq_refl (or_introl eq_refl)).
Defined.

(** X4.  Whatever image [preprocess_image] returns is in one of the three modes
    that the script hands to ReportLab: ["RGB"], ["RGBA"] or ["P"]. *)
Theorem X_preprocessed_mode (input_dir : Dir) (image_path : string)
  (img : PIL.Image) :
  preprocess_image input_dir image_path = Ok img ->
  PIL.mode img = "RGB" \/ PIL.mode img = "RGBA" \/ PIL.mode img = "P".
Proof.
  intros Hp.
  apply preprocess_image_inv in Hp
    as [[_ ->]|(image & l & u & r & b & _ & _ & _ & _ & _ & ->)];
    [now left|].
  simpl.
  destruct (String.eqb_spec (PIL.mode image) "RGB") as [E1|_]; simpl; [now left|].
  destruct (String.eqb_spec (PIL.mode image) "RGBA") as [E2|_]; simpl;
    [right; now left|].
  destruct (String.eqb_spec (PIL.mode image) "P") as [E3|_]; simpl;
    [right; now right | right; now left].
Qed.

Lemma X_preprocessed_mode_witness :
  exists img,
    preprocess_image dir_rgba "logo.png" = Ok img /\
    (PIL.mode img = "RGB" \/ PIL.mode img = "RGBA" \/ PIL.mode img = "P").
Proof.
  eexists. split; [reflexivity|].
  apply (@X_preprocessed_mode dir_rgba "logo.png"). reflexivity.
Defined.

(** X5.  Cropping never enlarges: under Pillow's guarantee on what it opens,
    the image returned for a file that opens is at least one pixel and at
    most the opened image in width and in height. *)
Theorem X_preprocessed_size (input_dir : Dir) (image_path : string)
  (image img : PIL.Image) :
  contents input_dir image_path = Some image ->
  PIL.wf_image image ->
  preprocess_image input_dir image_path = Ok img ->
  (1 <= PIL.width img <= PIL.width image /\
   1 <= PIL.height img <= PIL.height image)%Z.
Proof.
  intros Hc Hwf Hp.
  apply preprocess_image_inv in Hp
    as [[Hn _]|(image' & l & u & r & b & Hc' & E & _ & -> & -> & _)];
    [congruence|].
  rewrite Hc in Hc'. injection Hc' as <-.
  apply get_bounding_box_in_image in E; [lia | exact Hwf].
Qed.

Lemma X_preprocessed_size_witness :
  exists img,
    preprocess_image dir_rgba "logo.png" = Ok img /\
    (1 <= PIL.width img <= 10 /\ 1 <= PIL.height img <= 8)%Z.
Proof.
  eexists. split; [reflexivity|].
  apply (@X_preprocessed_size dir_rgba "logo.png" rgba_boxed).
  - reflexivity.
  - unfold PIL.wf_image. simpl. lia.
  - reflexivity.
Defined.

(* ------------------------------------------------------------------ *)
(** ** The selection of the files (line 73) *)

Lemma substring_all (s : string) : substring 0 (String.length s) s = s.
Proof. induction s as [|c r IH]; simpl; [reflexivity | now rewrite IH]. Qed.

Lemma substring_suffix (pre suf : string) :
  substring (String.length pre) (String.length suf) (pre ++ suf)%string = suf.
Proof. induction pre as [|c r IH]; simpl; [apply substring_all | exact IH]. Qed.

Lemma length_append (a b : string) :
  String.length (a ++ b)%string = (String.length a + String.length b)%nat.
Proof. induction a as [|c r IH]; simpl; [reflexivity | now rewrite IH]. Qed.

Lemma substring_is_suffix (d : nat) :
  forall s k, String.length s = (d + k)%nat ->
              exists pre, s = (pre ++ substring d k s)%string.
Proof.
  induction d as [|d IH]; intros s k Hlen.
  - exists EmptyString. simpl in *. subst k. now rewrite substring_all.
  - destruct s as [|c r]; [discriminate|].
    simpl in Hlen. injection Hlen as Hlen.
    destruct (IH r k Hlen) as [pre Hpre].
    exists (String c pre). simpl. now rewrite <- Hpre.
Qed.

Lemma endswith_iff (s suffix : string) :
  PyStr.endswith s suffix = true <-> exists pre, s = (pre ++ suffix)%string.
Proof.
  unfold PyStr.endswith. rewrite andb_true_iff, Nat.leb_le, String.eqb_eq.
  split.
  - intros [Hle Hsub].
    destruct (@substring_is_suffix (String.length s - String.length suffix) s
                                   (String.length suffix)) as [pre Hpre]; [lia|].
    exists pre. now rewrite Hsub in Hpre.
  - intros [pre ->]. rewrite length_append. split; [lia|].
    replace (String.length pre + String.length suffix - String.length suffix)%nat
      with (String.length pre) by lia.
    apply substring_suffix.
Qed.

(** X6.  A name of the listing is visited exactly when, in lower case, it is
    some stem followed by [.png], [.jpg] or [.jpeg]; the names that are
    visited are names of the listing. *)
Theorem X_selected_by_extension (input_dir : Dir) (f : string) :
  In f (image_files input_dir) <->
  In f (listdir input_dir) /\
  exists stem, PyStr.lower f = (stem ++ ".png")%string \/
               PyStr.lower f = (stem ++ ".jpg")%string \/
               PyStr.lower f = (stem ++ ".jpeg")%string.
Proof.
  rewrite in_image_files.
  unfold is_image_file, PyStr.endswith_any. simpl.
  rewrite !orb_true_iff, !endswith_iff.
  split; intros [Hin H]; (split; [exact Hin|]).
  - destruct H as [[s E]|[[s E]|[[s E]|H]]]; try discriminate; exists s; auto.
  - destruct H as [s [E|[E|E]]]; eauto.
Qed.

(** X7.  A listing without repeated names gives no name to visit twice. *)
Theorem X_no_file_twice (input_dir : Dir) :
  NoDup (listdir input_dir) -> NoDup (image_files input_dir).
Proof.
  intros H. unfold image_files.
  eapply Permutation_NoDup; [apply PyStrFacts.sorted_perm|].
  now apply NoDup_filter.
Qed.

Lemma X_no_file_twice_witness : NoDup (image_files dir_broken).
Proof.
  apply X_no_file_twice. simpl.
  repeat constructor; simpl; intuition discriminate.
Defined.

(* ------------------------------------------------------------------ *)
(** ** How many images are drawn *)

Lemma sized_length (input_dir : Dir) (f : string) :
  (List.length (sized input_dir f) <= 1)%nat.
Proof.
  unfold sized.
  destruct (preprocess_image input_dir f) as [img|e]; simpl; [|lia].
  destruct (target_size img); simpl; lia.
Qed.

Lemma flat_map_length_le (A B : Type) (g : A -> list B) (l : list A) :
  (forall a, List.length (g a) <= 1)%nat ->
  (List.length (flat_map g l) <= List.length l)%nat.
Proof.
  intros Hg. induction l as [|a r IH]; simpl; [lia|].
  rewrite length_app. specialize (Hg a). lia.
Qed.

Lemma flat_map_length_eq (A B : Type) (g : A -> list B) (l : list A) :
  (forall a, In a l -> List.length (g a) = 1%nat) ->
  List.length (flat_map g l) = List.length l.
Proof.
  intros Hg. induction l as [|a r IH]; simpl; [reflexivity|].
  rewrite length_app, (Hg a) by now left.
  rewrite IH; [reflexivity|]. intros b Hb. apply Hg. now right.
Qed.

Lemma sized_singleton (input_dir : Dir) (f : string) :
  (forall image, contents input_dir f = Some image ->
                 PIL.wf_image image /\ PIL.decodable image = true /\
                 palette_transparency image = false) ->
  List.length (sized input_dir f) = 1%nat.
Proof.
  intros Hok.
  destruct (preprocess_image_succeeds input_dir f) as [img Ep].
  { intros image Hc. destruct (Hok image Hc) as (_ & Hd & Hp). now split. }
  unfold sized. rewrite Ep.
  apply preprocess_image_positive in Ep as [Hw _].
  - simpl. rewrite target_size_ok by lia. reflexivity.
  - intros image Hc. now apply Hok.
Qed.

(** X8.  There are never more images in the document than image files in the
    listing; and when every file that opens is as Pillow guarantees, can be
    decoded and is not a palette image with a transparent colour, there
    are as many: each file, also one that does not open, gives one
    image. *)
Theorem X_one_image_per_file (input_dir : Dir) (page_size : Q * Q) :
  (List.length (placements (generate_pdf input_dir page_size))
   <= List.length (filter is_image_file (listdir input_dir)))%nat /\
  ((forall f image, contents input_dir f = Some image ->
                    PIL.wf_image image /\ PIL.decodable image = true /\
                    palette_transparency image = false) ->
   List.length (placements (generate_pdf input_dir page_size))
   = List.length (filter is_image_file (listdir input_dir))).
Proof.
  rewrite (Permutation_length (PyStrFacts.sorted_perm
                                 (filter is_image_file (listdir input_dir)))).
  fold (image_files input_dir).
  rewrite <- (length_map footprint), generate_pdf_footprints.
  split.
  - apply flat_map_length_le. apply sized_length.
  - intros Hok. apply flat_map_length_eq.
    intros f _. apply sized_singleton. intros image Hc. eapply Hok; eauto.
Qed.

Lemma X_one_image_per_file_witness :
  List.length (placements (generate_pdf dir_broken PAGE_SIZE)) = 3%nat.
Proof.
  apply (proj2 (X_one_image_per_file dir_broken PAGE_SIZE)).
  intros f image. simpl.
  destruct (f =? "m.PNG")%string; [|discriminate].
  intros H. injection H as <-. unfold PIL.wf_image. simpl.
  repeat split; lia.
Defined.

(* ------------------------------------------------------------------ *)
(** ** Gutters *)

Lemma gutter_inv_place (page_size : Q * Q) (s : Layout) (img : PIL.Image) (th : Q) :
  gutter_inv s -> gutter_inv (place page_size s img (2 * RL.inch) th).
Proof.
  intros (Hm & Hsep & Hall).
  destruct page_size as [page_width page_height].
  pose proof (py_max_ge (max_row_height s) th) as [Hmax1 Hmax2].
  pose proof (py_max_ge 0 th) as [Hmax3 Hmax4].
  destruct (place_cases page_width page_height s img (2 * RL.inch) th)
    as [Hfit|Hwrap Hroom|Hwrap Hfull];
    unfold gutter_inv; simpl;
    rewrite placements_drawImage, ?placements_showPage;
    (split; [lra|]); split.
  - apply ForallOrdPairs_snoc; [exact Hsep|].
    eapply Forall_impl; [|exact Hall].
    intros p [_ Hp] Hpg. simpl in Hpg. specialize (Hp Hpg).
    unfold separated. q_norm.
    destruct Hp as [[Hx _]|Hy]; [left|right]; lra.
  - apply Forall_app. split.
    + eapply Forall_impl; [|exact Hall].
      intros p [Hle Hp]. split; [exact Hle|].
      intros Hpg. specialize (Hp Hpg). q_norm.
      destruct Hp as [[Hx Hy]|Hy]; [left|right]; lra.
    + constructor; [|constructor]. simpl. split; [reflexivity|].
      intros _. left. q_norm. lra.
  - apply ForallOrdPairs_snoc; [exact Hsep|].
    eapply Forall_impl; [|exact Hall].
    intros p [_ Hp] Hpg. simpl in Hpg. specialize (Hp Hpg).
    unfold separated. q_norm. right.
    destruct Hp as [[_ Hy]|Hy]; lra.
  - apply Forall_app. split.
    + eapply Forall_impl; [|exact Hall].
      intros p [Hle Hp]. split; [exact Hle|].
      intros Hpg. specialize (Hp Hpg). right. q_norm.
      destruct Hp as [[_ Hy]|Hy]; lra.
    + constructor; [|constructor]. simpl. split; [reflexivity|].
      intros _. left. q_norm. lra.
  - apply ForallOrdPairs_snoc; [exact Hsep|].
    eapply Forall_impl; [|exact Hall].
    intros p [Hle _] Hpg. simpl in Hpg.
    rewrite pageCount_showPage in Hpg. lia.
  - apply Forall_app. split.
    + eapply Forall_impl; [|exact Hall].
      intros p [Hle _]. rewrite pageCount_drawImage, pageCount_showPage.
      split; [lia|]. intros Hpg. lia.
    + constructor; [|constructor]. simpl. split; [reflexivity|].
      intros _. left. q_norm. lra.
Qed.

(** X9.  Of two images on the same page, the one drawn first ends at least a
    gutter of 0.2 inch left of the other, or the other ends at least a
    gutter below it. *)
Theorem X_gutter_kept (input_dir : Dir) (page_size : Q * Q)
  (i j : nat) (p q : Placement) :
  (i < j)%nat ->
  nth_error (placements (generate_pdf input_dir page_size)) i = Some p ->
  nth_error (placements (generate_pdf input_dir page_size)) j = Some q ->
  pageIndex p = pageIndex q ->
  px p + pw p + 0.2 * RL.inch <= px q \/
  py q + ph q + 0.2 * RL.inch <= py p.
Proof.
  intros Hij Hi Hj Hpg.
  assert (Hsep : ForallOrdPairs
                   (fun p q => pageIndex p = pageIndex q -> separated p q)
                   (placements (generate_pdf input_dir page_size))).
  { unfold generate_pdf. destruct page_size as [page_width page_height] eqn:Eps.
    destruct (image_files input_dir) as [|f r].
    - rewrite placements_save, placements_drawString. constructor.
    - rewrite placements_save, <- Eps.
      apply (loop_invariant input_dir page_size gutter_inv).
      + intros s filename img tw th Hs _ Ht.
        apply target_size_inv in Ht as (_ & -> & _).
        now apply gutter_inv_place.
      + unfold gutter_inv. simpl. repeat split; try constructor. lra. }
  exact (ForallOrdPairs_nth Hsep Hij Hi Hj Hpg).
Qed.

Lemma X_gutter_kept_witness :
  exists p q,
    nth_error (placements (generate_pdf dir_two PAGE_SIZE)) 0 = Some p /\
    nth_error (placements (generate_pdf dir_two PAGE_SIZE)) 1 = Some q /\
    (px p + pw p + 0.2 * RL.inch <= px q \/
     py q + ph q + 0.2 * RL.inch <= py p).
Proof.
  do 2 eexists. split; [vm_compute; reflexivity|].
  split; [vm_compute; reflexivity|].
  eapply (@X_gutter_kept dir_two PAGE_SIZE 0 1);
    first [lia | vm_compute; reflexivity].
Defined.

(* ------------------------------------------------------------------ *)
(** ** Columns *)

Lemma column_S (k : nat) :
  column (S k) == column k + (2 * RL.inch + 0.2 * RL.inch).
Proof.
  unfold column. rewrite Nat2Z.inj_succ, <- Z.add_1_r, inject_Z_plus.
  unfold RL.inch. simpl (inject_Z 1). ring.
Qed.

Lemma grid_inv_place (page_size : Q * Q) (s : Layout) (img : PIL.Image) (th : Q) :
  grid_inv s -> grid_inv (place page_size s img (2 * RL.inch) th).
Proof.
  intros ([k Hk] & Hall).
  destruct page_size as [page_width page_height].
  destruct (place_cases page_width page_height s img (2 * RL.inch) th)
    as [Hfit|Hwrap Hroom|Hwrap Hfull];
    unfold grid_inv; simpl;
    rewrite placements_drawImage, ?placements_showPage.
  - split.
    + exists (S k). rewrite column_S, Hk. reflexivity.
    + apply Forall_app. split; [exact Hall|].
      constructor; [|constructor]. now exists k.
  - split.
    + exists 1%nat. rewrite column_S. reflexivity.
    + apply Forall_app. split; [exact Hall|].
      constructor; [|constructor]. now exists 0%nat.
  - split.
    + exists 1%nat. rewrite column_S. reflexivity.
    + apply Forall_app. split; [exact Hall|].
      constructor; [|constructor]. now exists 0%nat.
Qed.

(** X10.  Every image is drawn in a column of a fixed grid: its left edge is a
    whole number of steps of 2.2 inches (the width of an image and a gutter)
    from the left margin. *)
Theorem X_columns (input_dir : Dir) (page_size : Q * Q) (p : Placement) :
  In p (placements (generate_pdf input_dir page_size)) ->
  exists k : nat,
    px p == RL.inch + inject_Z (Z.of_nat k) * (2 * RL.inch + 0.2 * RL.inch).
Proof.
  intros Hp.
  assert (Hall : Forall (fun p => exists k, px p == column k)
                        (placements (generate_pdf input_dir page_size))).
  { unfold generate_pdf. destruct page_size as [page_width page_height] eqn:Eps.
    destruct (image_files input_dir) as [|f r].
    - rewrite placements_save, placements_drawString. constructor.
    - rewrite placements_save, <- Eps.
      apply (loop_invariant input_dir page_size grid_inv).
      + intros s filename img tw th Hs _ Ht.
        apply target_size_inv in Ht as (_ & -> & _).
        now apply grid_inv_place.
      + split; [now exists 0%nat | constructor]. }
  rewrite Forall_forall in Hall. exact (Hall p Hp).
Qed.

Lemma X_columns_witness :
  exists p k,
    In p (placements (generate_pdf dir_two PAGE_SIZE)) /\
    px p == RL.inch + inject_Z (Z.of_nat k) * (2 * RL.inch + 0.2 * RL.inch).
Proof.
  eexists.
  destruct (@X_columns dir_two PAGE_SIZE
              (mkPlacement 0 (rgb 1 1) RL.inch
                 (snd PAGE_SIZE - RL.inch
                  - inject_Z 1 * (2 * RL.inch) / inject_Z 1)
                 (2 * RL.inch) (inject_Z 1 * (2 * RL.inch) / inject_Z 1)))
    as [k Hk].
  - left. reflexivity.
  - exists k. split; [left; reflexivity | exact Hk].
Defined.

(* ------------------------------------------------------------------ *)
(** ** Pages *)

Lemma has_image_placement (i : nat) (ops : list RL.Op) :
  has_image ops -> exists p, In p (placements_of_page i ops).
Proof.
  unfold has_image.
  induction ops as [|[x y t|im x y w h] r IH]; simpl; [discriminate|exact IH|].
  intros _. eexists. now left.
Qed.

Lemma placements_from_nth (pgs : list (list RL.Op)) :
  forall i k ops p,
    nth_error pgs k = Some ops ->
    In p (placements_of_page (i + k) ops) ->
    In p (placements_from i pgs).
Proof.
  induction pgs as [|pg r IH]; intros i k ops p Hk Hp; [now destruct k|].
  simpl. rewrite in_app_iff. destruct k as [|k]; simpl in Hk.
  - injection Hk as ->. left. now rewrite Nat.add_0_r in Hp.
  - right. apply (IH (S i) k ops); [exact Hk|].
    now replace (S i + k)%nat with (i + S k)%nat by lia.
Qed.

Lemma has_image_snoc (ops : list RL.Op) (im : PIL.Image) (x y w h : Q) :
  has_image (ops ++ [RL.DrawImage im x y w h]).
Proof.
  unfold has_image. rewrite existsb_app. simpl. apply orb_true_r.
Qed.

Lemma Forall_tl_snoc (A : Type) (P : A -> Prop) (l : list A) (a : A) :
  Forall P (tl l) -> P a -> Forall P (tl (l ++ [a])).
Proof.
  destruct l as [|b r]; simpl; intros Hl Ha; [constructor|].
  apply Forall_app. split; [exact Hl | now constructor].
Qed.

Lemma pages_inv_place (page_size : Q * Q) (s : Layout) (img : PIL.Image) (th : Q) :
  pages_inv page_size s ->
  pages_inv page_size (place page_size s img (2 * RL.inch) th).
Proof.
  intros Hs. right.
  destruct page_size as [page_width page_height].
  destruct (place_cases page_width page_height s img (2 * RL.inch) th)
    as [Hfit|Hwrap Hroom|Hwrap Hfull]; simpl;
    (split; [first [apply has_image_snoc | reflexivity]|]).
  - destruct Hs as [[-> _]|(_ & Ht & Hw)]; simpl; auto.
  - destruct Hs as [[-> _]|(_ & Ht & Hw)]; simpl; auto.
  - destruct Hs as [[Hc Hx]|(Hcode & Ht & Hw)].
    + rewrite Hc. simpl. split; [constructor|].
      intros Hwide. exfalso. rewrite Hx in Hwrap. q_norm. lra.
    + split; [now apply Forall_tl_snoc|].
      intros Hwide. apply Forall_app. split; [now apply Hw | now constructor].
Qed.

(** X12.  Apart from the first, no page of the document is blank: each holds an
    image.  On a page at least four inches wide, when the listing has an
    image file, the first page holds an image too. *)
Theorem X_no_blank_page (input_dir : Dir) (page_size : Q * Q) (k : nat) :
  (k < pageCount (generate_pdf input_dir page_size))%nat ->
  (1 <= k)%nat \/ (4 * RL.inch <= fst page_size /\ image_files input_dir <> []) ->
  exists p, In p (placements (generate_pdf input_dir page_size)) /\
            pageIndex p = k.
Proof.
  unfold generate_pdf. destruct page_size as [page_width page_height] eqn:Eps.
  destruct (image_files input_dir) as [|f r] eqn:Ef.
  - unfold pageCount. simpl. intros Hk [H1|[_ Hne]]; [lia | congruence].
  - rewrite <- Eps. set (files := f :: r). intros Hk Hcase.
    assert (Hinv : pages_inv page_size
                     (fold_left (loop_body input_dir page_size) files
                                (initial_layout page_size RL.Canvas_new))).
    { apply loop_invariant.
      - intros s filename img tw th Hs _ Ht.
        apply target_size_inv in Ht as (_ & -> & _).
        now apply pages_inv_place.
      - left. split; reflexivity. }
    set (s := fold_left _ files _) in *.
    destruct Hinv as [[Hc _]|(Hcode & Ht & Hw)].
    + rewrite Hc in Hk. unfold pageCount in Hk. simpl in Hk. lia.
    + assert (Hpages : RL.pages (RL.save (canvas s))
                       = RL.pages (canvas s) ++ [RL.code (canvas s)]).
      { unfold RL.save. unfold has_image in Hcode.
        destruct (RL.code (canvas s)) eqn:E; [discriminate Hcode|].
        simpl. now rewrite E. }
      unfold pageCount in Hk. rewrite Hpages in Hk.
      destruct (nth_error (RL.pages (canvas s) ++ [RL.code (canvas s)]) k)
        as [ops|] eqn:Hn; [|apply nth_error_None in Hn; lia].
      assert (Hops : has_image ops).
      { destruct Hcase as [H1|[Hwide _]].
        - assert (Hall : Forall has_image
                           (tl (RL.pages (canvas s) ++ [RL.code (canvas s)])))
            by now apply Forall_tl_snoc.
          destruct k as [|k]; [lia|].
          rewrite Forall_forall in Hall. apply Hall.
          destruct (RL.pages (canvas s) ++ [RL.code (canvas s)]) as [|pg0 rest];
            [discriminate|].
          simpl in *. eapply nth_error_In; eauto.
        - assert (Hall : Forall has_image
                           (RL.pages (canvas s) ++ [RL.code (canvas s)])).
          { apply Forall_app. split; [apply Hw | now constructor].
            rewrite Eps in Hwide. rewrite Eps. exact Hwide. }
          rewrite Forall_forall in Hall. apply Hall.
          eapply nth_error_In; eauto. }
      destruct (has_image_placement k Hops) as [p Hp].
      exists p. split; [|now apply placements_of_page_index in Hp].
      rewrite placements_save. unfold placements.
      now apply (@placements_from_nth _ 0%nat k ops).
Qed.

Lemma X_no_blank_page_witness :
  exists p, In p (placements (generate_pdf dir_four_tall letter)) /\
            pageIndex p = 1%nat.
Proof.
  apply X_no_blank_page.
  - vm_compute. lia.
  - left. lia.
Defined.

(* ------------------------------------------------------------------ *)
(** ** The main block: the layout on the page of the script *)

Lemma PAGE_SIZE_val : PAGE_SIZE = (210 * RL.mm, 297 * RL.mm).
Proof. reflexivity. Qed.

Lemma column_values : column 0 == 72 /\ column 1 == 230.4 /\ column 2 == 388.8.
Proof. repeat split; reflexivity. Qed.

Lemma two_columns_inv_place (s : Layout) (img : PIL.Image) (th : Q) :
  two_columns_inv s -> two_columns_inv (place PAGE_SIZE s img (2 * RL.inch) th).
Proof.
  intros (Hx & Hall). rewrite PAGE_SIZE_val.
  destruct column_values as (C0 & C1 & C2).
  assert (W : 210 * RL.mm == 75600 # 127) by reflexivity.
  destruct (place_cases (210 * RL.mm) (297 * RL.mm) s img (2 * RL.inch) th)
    as [Hfit|Hwrap Hroom|Hwrap Hfull];
    unfold two_columns_inv; simpl;
    rewrite placements_drawImage, ?placements_showPage;
    unfold RL.inch in *.
  - assert (Hx' : current_x s == column 0 \/ current_x s == column 1)
      by (destruct Hx as [Hx|[Hx|Hx]]; [now left | now right | exfalso; lra]).
    split.
    + destruct Hx' as [Hx'|Hx']; [right; left | right; right]; lra.
    + apply Forall_app. split; [exact Hall|].
      constructor; [|constructor]. exact Hx'.
  - split; [right; left; lra|].
    apply Forall_app. split; [exact Hall|].
    constructor; [|constructor]. simpl. left. lra.
  - split; [right; left; lra|].
    apply Forall_app. split; [exact Hall|].
    constructor; [|constructor]. simpl. left. lra.
Qed.

(** X13.  When the input directory exists, the script lays the images on its A4
    page in two columns, at 1 inch and at 3.2 inches from the left edge,
    and every image ends at least one inch from the right edge. *)
Theorem X_main_two_columns (input_dir : Dir) (doc : RL.Canvas) (p : Placement) :
  main (Some input_dir) = Some doc ->
  In p (placements doc) ->
  (px p == RL.inch \/ px p == RL.inch + (2 * RL.inch + 0.2 * RL.inch)) /\
  px p + pw p <= fst PAGE_SIZE - RL.inch.
Proof.
  intros Hmain Hp. injection Hmain as <-.
  split.
  - assert (Hall : Forall (fun p => px p == column 0 \/ px p == column 1)
                          (placements (generate_pdf input_dir PAGE_SIZE))).
    { unfold generate_pdf. rewrite PAGE_SIZE_val.
      destruct (image_files input_dir) as [|f r].
      - rewrite placements_save, placements_drawString. constructor.
      - rewrite placements_save, <- PAGE_SIZE_val.
        apply (loop_invariant input_dir PAGE_SIZE two_columns_inv).
        + intros s filename img tw th Hs _ Ht.
          apply target_size_inv in Ht as (_ & -> & _).
          now apply two_columns_inv_place.
        + split; [left; reflexivity | constructor]. }
    rewrite Forall_forall in Hall. specialize (Hall p Hp).
    destruct column_values as (C0 & C1 & _). unfold RL.inch.
    destruct Hall as [H|H]; [left | right]; lra.
  - pose proof (generate_pdf_within_margins input_dir PAGE_SIZE) as H.
    rewrite Forall_forall in H. destruct (H p Hp) as (_ & _ & Hr).
    apply Hr. vm_compute. discriminate.
Qed.

Lemma X_main_two_columns_witness :
  exists p, In p (placements (generate_pdf dir_two PAGE_SIZE)) /\
            (px p == RL.inch \/ px p == RL.inch + (2 * RL.inch + 0.2 * RL.inch)).
Proof.
  eexists. split; [vm_compute; left; reflexivity|].
  apply (@X_main_two_columns dir_two (generate_pdf dir_two PAGE_SIZE)).
  - reflexivity.
  - vm_compute. left. reflexivity.
Defined.

(* ------------------------------------------------------------------ *)
(** ** [compress_images] *)

Section CompressFacts.

Variable bytes : Type.
Variable decode : bytes -> option (string * PIL.Image).
Variable encode : string -> PIL.Image -> option string -> SaveOptions -> option bytes.
Variable debris : string -> PIL.Image -> option bytes -> option bytes.
Variable samefile : string -> string -> bool.
Variable writable : string -> bool.

Lemma write_same (fs : Files bytes) (path : string) (v : option bytes) :
  write samefile fs path v path = v.
Proof. unfold write, same_file. now rewrite String.eqb_refl. Qed.

Lemma write_other (fs : Files bytes) (path q : string) (v : option bytes) :
  same_file samefile q path = false -> write samefile fs path v q = fs q.
Proof. intros H. unfold write. now rewrite H. Qed.

Lemma Image_save_frame (fs : Files bytes) (path : string) (image : PIL.Image)
  (format : option string) (opts : SaveOptions) (q : string) :
  same_file samefile q path = false ->
  snd (Image_save encode debris samefile fs path image format opts) q = fs q.
Proof.
  intros H. unfold Image_save.
  destruct (encode path image format opts); simpl; now apply write_other.
Qed.

Lemma try_block_attempt (fs : Files bytes) (inp out : string) (level : Z) :
  compress_try_block decode encode debris samefile fs inp out level =
  match Image_open_file decode fs inp with
  | Raise e => (Raise e, fs)
  | Ok (format, image) =>
      let '(im, fmt, opts) := attempted_save format image level in
      Image_save encode debris samefile fs out im fmt opts
  end.
Proof.
  unfold compress_try_block, attempted_save.
  destruct (Image_open_file decode fs inp) as [[format image]|e]; [|reflexivity].
  destruct (format =? "PNG")%string; [reflexivity|].
  now destruct (existsb _ _).
Qed.

Lemma try_block_frame (fs : Files bytes) (inp out : string) (level : Z) (q : string) :
  same_file samefile q out = false ->
  snd (compress_try_block decode encode debris samefile fs inp out level) q = fs q.
Proof.
  intros H. rewrite try_block_attempt.
  destruct (Image_open_file decode fs inp) as [[format image]|e]; [|reflexivity].
  destruct (attempted_save format image level) as [[im fmt] opts].
  now apply Image_save_frame.
Qed.

Lemma try_block_ok (fs : Files bytes) (inp out : string) (level : Z)
  (u : unit) (fs' : Files bytes) :
  compress_try_block decode encode debris samefile fs inp out level = (Ok u, fs') ->
  exists b, fs' out = Some b.
Proof.
  rewrite try_block_attempt.
  destruct (Image_open_file decode fs inp) as [[format image]|e]; [|discriminate].
  destruct (attempted_save format image level) as [[im fmt] opts].
  unfold Image_save. destruct (encode out im fmt opts) as [b|];
    intros H; inversion H; subst. exists b. apply write_same.
Qed.

Lemma try_block_raise (fs : Files bytes) (inp out : string) (level : Z) (b : bytes) :
  fs inp = Some b ->
  try_block_raises decode encode out level b ->
  exists e, fst (compress_try_block decode encode debris samefile fs inp out level)
            = Raise e.
Proof.
  intros Hin Hr. rewrite try_block_attempt.
  unfold Image_open_file, try_block_raises in *. rewrite Hin.
  destruct (decode b) as [[format image]|]; [|now eexists].
  destruct (attempted_save format image level) as [[im fmt] opts].
  unfold Image_save. rewrite Hr. now eexists.
Qed.

Lemma compress_unfold (fs : Files bytes) (inp out : string) (level : Z) :
  compress_images decode encode debris samefile writable fs inp out level =
  match compress_try_block decode encode debris samefile fs inp out level with
  | (Ok _, fs') => (Ok out, fs')
  | (Raise _, fs') =>
      match copyfile samefile writable fs' inp out with
      | (Ok _, fs'') => (Ok out, fs'')
      | (Raise e, fs'') => (Raise e, fs'')
      end
  end.
Proof. reflexivity. Qed.

(** X14.  When the input file exists, the output is not the same file and
    can be written, [compress_images] does not raise: it returns the
    output path, the output file exists afterwards, and no other file has
    changed (the input is kept). *)
Theorem X_compress_writes_output (fs : Files bytes) (inp out : string)
  (level : Z) (b : bytes) :
  fs inp = Some b ->
  same_file samefile inp out = false ->
  writable out = true ->
  fst (compress_images decode encode debris samefile writable fs inp out level)
  = Ok out /\
  (exists b',
      snd (compress_images decode encode debris samefile writable fs inp out level)
          out = Some b') /\
  (forall q,
      same_file samefile q out = false ->
      snd (compress_images decode encode debris samefile writable fs inp out level) q
      = fs q).
Proof.
  intros Hin Hne Hw. rewrite compress_unfold.
  pose proof (@try_block_frame fs inp out level) as Hframe.
  pose proof (@try_block_ok fs inp out level) as Hok.
  destruct (compress_try_block decode encode debris samefile fs inp out level)
    as [[u|e] fs'] eqn:Et; simpl in *.
  - split; [reflexivity|]. split; [eapply Hok; reflexivity | exact Hframe].
  - unfold copyfile. rewrite (Hframe inp Hne), Hin, Hne, Hw. simpl.
    split; [reflexivity|]. split.
    + exists b. apply write_same.
    + intros q Hq. rewrite write_other by exact Hq. now apply Hframe.
Qed.

(** X15.  When the input file is missing, [compress_images] raises (the copy
    of the [except] branch fails in turn) and no file has changed. *)
Theorem X_compress_missing_input (fs : Files bytes) (inp out : string) (level : Z) :
  fs inp = None ->
  compress_images decode encode debris samefile writable fs inp out level
  = (Raise OSError, fs).
Proof.
  intros Hin. unfold compress_images, Image_open_file, copyfile.
  rewrite Hin. simpl. now rewrite Hin.
Qed.

(** X16.  When the [try] block raises (the input cannot be read as an image,
    or Pillow raises on the save that the script asks for), the output is
    not the same file as the input and can be written, the output is the
    input, byte for byte. *)
Theorem X_compress_fallback_copy (fs : Files bytes) (inp out : string)
  (level : Z) (b : bytes) :
  fs inp = Some b ->
  same_file samefile inp out = false ->
  writable out = true ->
  try_block_raises decode encode out level b ->
  fst (compress_images decode encode debris samefile writable fs inp out level)
  = Ok out /\
  snd (compress_images decode encode debris samefile writable fs inp out level) out
  = Some b.
Proof.
  intros Hin Hne Hw Hfail. rewrite compress_unfold.
  pose proof (@try_block_frame fs inp out level) as Hframe.
  destruct (@try_block_raise fs inp out level b Hin Hfail) as [e He].
  destruct (compress_try_block decode encode debris samefile fs inp out level)
    as [[u|e'] fs'] eqn:Et; simpl in *; [discriminate|].
  unfold copyfile. rewrite (Hframe inp Hne), Hin, Hne, Hw. simpl.
  split; [reflexivity | apply write_same].
Qed.

(** X17.  Compressing a file onto itself raises whenever the file cannot be
    read as an image or Pillow cannot write it: the copy of the [except]
    branch refuses to copy a file onto itself. *)
Theorem X_compress_in_place_raises (fs : Files bytes) (path : string)
  (level : Z) (b : bytes) :
  fs path = Some b ->
  decode b = None \/ (forall image format opts, encode path image format opts = None) ->
  fst (compress_images decode encode debris samefile writable fs path path level)
  = Raise OSError.
Proof.
  intros Hin Hfail. rewrite compress_unfold.
  assert (Hr : try_block_raises decode encode path level b).
  { unfold try_block_raises. destruct (decode b) as [[format image]|]; [|exact I].
    destruct Hfail as [Hd|He]; [discriminate|].
    destruct (attempted_save format image level) as [[im fmt] opts]. apply He. }
  destruct (@try_block_raise fs path path level b Hin Hr) as [e He].
  destruct (compress_try_block decode encode debris samefile fs path path level)
    as [[u|e'] fs'] eqn:Et; simpl in *; [discriminate|].
  unfold copyfile, same_file. destruct (fs' path); [|reflexivity].
  now rewrite String.eqb_refl.
Qed.

(** X18.  For a JPEG and a compression level that is not negative, the quality
    handed to Pillow is [95 - 10 * level], and 1 from level 10 on, so
    always between 1 and 95; when Pillow writes the file, that is the
    output. *)
Theorem X_compress_jpeg_quality (fs : Files bytes) (inp out : string)
  (level : Z) (b : bytes) (format : string) (image : PIL.Image) :
  (0 <= level)%Z ->
  fs inp = Some b ->
  decode b = Some (format, image) ->
  existsb (String.eqb format) ["JPEG"; "JPG"]%string = true ->
  (1 <= quality_level level <= 95)%Z /\
  (level <= 9 -> quality_level level = 95 - 10 * level)%Z /\
  (10 <= level -> quality_level level = 1)%Z /\
  (forall b',
      encode out (PIL.convert image "RGB") (Some "JPEG"%string)
             (quality (quality_level level)) = Some b' ->
      compress_images decode encode debris samefile writable fs inp out level
      = (Ok out, write samefile fs out (Some b'))).
Proof.
  intros Hlevel Hin Hd Hfmt.
  assert (Hq : quality_level level = Z.max 1 (95 - level * 10)).
  { unfold quality_level, py_max_int.
    destruct (Z.ltb_spec 1 (95 - level * 10)); lia. }
  repeat split; try lia.
  intros b' He. unfold compress_images, Image_open_file. rewrite Hin, Hd.
  assert (Hpng : (format =? "PNG")%string = false).
  { simpl in Hfmt.
    destruct (String.eqb_spec format "JPEG") as [->|_]; [reflexivity|].
    destruct (String.eqb_spec format "JPG") as [->|_]; [reflexivity|].
    discriminate. }
  rewrite Hpng, Hfmt. unfold Image_save. now rewrite He.
Qed.

(** X19.  When the [try] block raises and the copy of the [except] branch
    cannot be made, because input and output are the same file (under
    whatever two names) or because the output cannot be written,
    [compress_images] raises. *)
Theorem X_compress_no_fallback_raises (fs : Files bytes) (inp out : string)
  (level : Z) (b : bytes) :
  fs inp = Some b ->
  try_block_raises decode encode out level b ->
  same_file samefile inp out = true \/ writable out = false ->
  fst (compress_images decode encode debris samefile writable fs inp out level)
  = Raise OSError.
Proof.
  intros Hin Hfail Hno. rewrite compress_unfold.
  pose proof (@try_block_frame fs inp out level) as Hframe.
  destruct (@try_block_raise fs inp out level b Hin Hfail) as [e He].
  destruct (compress_try_block decode encode debris samefile fs inp out level)
    as [[u|e'] fs'] eqn:Et; simpl in *; [discriminate|].
  unfold copyfile.
  destruct (same_file samefile inp out) eqn:Es.
  - now destruct (fs' inp).
  - destruct Hno as [Hs|Hw]; [discriminate|].
    rewrite (Hframe inp Es), Hin, Hw. reflexivity.
Qed.

End CompressFacts.

Lemma X_compress_writes_output_witness :
  fst (compress_images toy_decode toy_encode toy_debris toy_samefile toy_writable
                       toy_files "notes.txt" "out.txt" 5) = Ok "out.txt"%string.
Proof.
  apply (@X_compress_writes_output Z toy_decode toy_encode toy_debris
           toy_samefile toy_writable toy_files "notes.txt" "out.txt" 5%Z 0%Z);
    reflexivity.
Defined.

Lemma X_compress_missing_input_witness :
  compress_images toy_decode toy_encode toy_debris toy_samefile toy_writable
                  toy_files "gone.png" "out.png" 5
  = (Raise OSError, toy_files).
Proof. apply X_compress_missing_input. reflexivity. Defined.

Lemma X_compress_fallback_copy_witness :
  snd (compress_images toy_decode toy_encode toy_debris toy_samefile toy_writable
                       toy_files "notes.txt" "out.txt" 5) "out.txt"%string
  = Some 0%Z /\
  snd (compress_images toy_decode_png toy_encode toy_debris toy_samefile toy_writable
                       toy_files "in.jpg" "out.png" 5) "out.png"%string
  = Some 7%Z.
Proof.
  split.
  - apply (@X_compress_fallback_copy Z toy_decode toy_encode toy_debris
             toy_samefile toy_writable toy_files "notes.txt" "out.txt" 5%Z 0%Z);
      first [reflexivity | exact I].
  - apply (@X_compress_fallback_copy Z toy_decode_png toy_encode toy_debris
             toy_samefile toy_writable toy_files "in.jpg" "out.png" 5%Z 7%Z);
      reflexivity.
Defined.

Lemma X_compress_in_place_raises_witness :
  fst (compress_images toy_decode toy_encode toy_debris toy_samefile toy_writable
                       toy_files "notes.txt" "notes.txt" 5) = Raise OSError.
Proof.
  apply (@X_compress_in_place_raises Z toy_decode toy_encode toy_debris
           toy_samefile toy_writable toy_files "notes.txt" 5%Z 0%Z).
  - reflexivity.
  - left. reflexivity.
Defined.

Lemma X_compress_jpeg_quality_witness :
  (1 <= quality_level 5 <= 95)%Z /\
  compress_images toy_decode toy_encode toy_debris toy_samefile toy_writable
                  toy_files "in.jpg" "out.jpg" 5
  = (Ok "out.jpg"%string, write toy_samefile toy_files "out.jpg" (Some 45%Z)).
Proof.
  destruct (@X_compress_jpeg_quality Z toy_decode toy_encode toy_debris
              toy_samefile toy_writable toy_files
              "in.jpg" "out.jpg" 5%Z 7%Z "JPEG"%string (rgb 1 1))
    as (Hq & _ & _ & Hc).
  - lia.
  - reflexivity.
  - reflexivity.
  - reflexivity.
  - split; [exact Hq|]. apply Hc. reflexivity.
Defined.

Lemma X_compress_no_fallback_raises_witness :
  fst (compress_images toy_decode toy_encode toy_debris toy_samefile toy_writable
                       toy_files "notes.txt" "./notes.txt" 5) = Raise OSError /\
  fst (compress_images toy_decode toy_encode toy_debris toy_samefile toy_writable
                       toy_files "notes.txt" "nodir/out.txt" 5) = Raise OSError.
Proof.
  split.
  - apply (@X_compress_no_fallback_raises Z toy_decode toy_encode toy_debris
             toy_samefile toy_writable toy_files "notes.txt" "./notes.txt" 5%Z 0%Z);
      first [reflexivity | exact I | left; reflexivity].
  - apply (@X_compress_no_fallback_raises Z toy_decode toy_encode toy_debris
             toy_samefile toy_writable toy_files "notes.txt" "nodir/out.txt" 5%Z 0%Z);
      first [reflexivity | exact I | right; reflexivity].
Defined.
